(** * Token Ring monitor: ingestion, aggregation and playback

    A shallow embedding of [backend/networkMonitor.js], of the TCP and
    playback handlers of [backend/server.js] and of the event store of
    [backend/database.js], with the properties of the specification that
    concern them.

    Conventions of the embedding.
    - A JavaScript property that may be missing, [null] or present is a
      [field]: [Absent], [Null] or [Val v].  Object spread
      [{...a, ...b}] is [over b a], property by property.
    - Identifiers and phases are strings; counters, sequence numbers and
      ports are integers ([Z]).
    - [new Date().toISOString()] is the integer [now] (milliseconds since
      the epoch) handed to every operation; ISO strings of equal length
      compare as these integers do.
    - The three derived ratios are JavaScript doubles ([number]): a finite
      ratio is kept as an exact rational ([Q]), a division by zero gives
      [NaN] or an infinity.  Counters are unbounded integers; doubles
      count exactly up to [2 ^ 53], and a statement that depends on it
      says so.
    - [Map]s are [gmap]s; every use the code makes of their iteration order
      (lengths, sums) is independent of that order.
    - An [async] function whose suspension the rest of the server can
      observe is split at its [await]: what it does before is the function
      itself, what it does once the awaited queries are done is a step of
      its own ([endRecordingSession_resumed], [playback_loaded]). *)

From Stdlib Require Import ZArith QArith Lia Sorting.Sorted Sorting.Permutation.
From stdpp Require Import base gmap strings list fin_maps.

Local Open Scope Z_scope.

(** ** JavaScript values *)

Inductive field (A : Type) : Type :=
  | Absent
  | Null
  | Val (a : A).
Arguments Absent {A}.
Arguments Null {A}.
Arguments Val {A} a.

(** [{...old, ...new}] on one property. *)
Definition over {A} (new old : field A) : field A :=
  match new with
  | Absent => old
  | _ => new
  end.

(** Truthiness of a string, a number and an array. *)
Definition truthy_str (f : field string) : bool :=
  match f with
  | Val s => negb (String.eqb s "")
  | _ => false
  end.

Definition truthy_num (f : field Z) : bool :=
  match f with
  | Val z => negb (z =? 0)
  | _ => false
  end.

Definition truthy_arr {A} (f : field (list A)) : bool :=
  match f with
  | Val _ => true
  | _ => false
  end.

(** [x || 0] on a numeric property. *)
Definition or0 (f : field Z) : Z :=
  match f with
  | Val z => z
  | _ => 0
  end.

(** [x || []] on an array property. *)
Definition or_nil {A} (f : field (list A)) : list A :=
  match f with
  | Val l => l
  | _ => []
  end.

(** [a === b] on string properties ([undefined] and [null] are two
    different values). *)
Definition field_eqb (a b : field string) : bool :=
  match a, b with
  | Absent, Absent => true
  | Null, Null => true
  | Val x, Val y => String.eqb x y
  | _, _ => false
  end.

(** A number that results from a division: finite, [NaN], or an infinity
    with its sign. *)
Inductive number : Type :=
  | Finite (q : Q)
  | NaN
  | Infinity (negative : bool).

(** [a / b] on two integers: [0 / 0] is [NaN], and [a / 0] is the
    infinity of the sign of [a]. *)
Definition js_div (a b : Z) : number :=
  if decide (b = 0) then
    if decide (a = 0) then NaN else Infinity (bool_decide (a < 0))
  else Finite (inject_Z a / inject_Z b)%Q.

(** [x * 100]. *)
Definition times_100 (x : number) : number :=
  match x with
  | Finite q => Finite (q * 100)%Q
  | NaN => NaN
  | Infinity negative => Infinity negative
  end.

(** Two numbers of the same value; finite values are compared as
    rationals. *)
Definition number_eq (x y : number) : Prop :=
  match x, y with
  | Finite p, Finite q => (p == q)%Q
  | NaN, NaN => True
  | Infinity a, Infinity b => a = b
  | _, _ => False
  end.

(** A finite number between two bounds. *)
Definition between (lo hi : Q) (x : number) : Prop :=
  match x with
  | Finite q => (lo <= q <= hi)%Q
  | _ => False
  end.

(** ** Data model of [NetworkMonitor] *)

(** A node object: the [data] of a [node_info] report (without its
    [nodeId], which is the key of the map), the properties the server adds
    ([socket], [lastSeen], [status]) and those the monitor writes later.
    A report may also carry the properties [id], [label] and [hasToken],
    which the monitor never writes on a node but which the final
    [...nodeInfo] of [updateTopologyFromNode] copies into the entry of
    [topology.nodes]; [node_id] is the property [id]. *)
Record NodeRec : Type := mkNode {
  ip : field string;
  port : field Z;
  neighbors : field (list string);
  status : field string;
  version : field string;
  socket : field nat;
  lastSeen : field Z;
  lastUpdated : field Z;
  bytesSent : field Z;
  bytesReceived : field Z;
  messagesRelayed : field Z;
  tokenHolds : field Z;
  lastTokenHold : field Z;
  node_id : field string;
  label : field string;
  hasToken : field bool
}.

(** The object with no property: what spreading [undefined] gives. *)
Definition empty_node : NodeRec :=
  mkNode Absent Absent Absent Absent Absent Absent Absent Absent Absent
         Absent Absent Absent Absent Absent Absent Absent.

(** [{...old, ...new}]. *)
Definition spread_node (old new : NodeRec) : NodeRec :=
  {| ip := over (ip new) (ip old);
     port := over (port new) (port old);
     neighbors := over (neighbors new) (neighbors old);
     status := over (status new) (status old);
     version := over (version new) (version old);
     socket := over (socket new) (socket old);
     lastSeen := over (lastSeen new) (lastSeen old);
     lastUpdated := over (lastUpdated new) (lastUpdated old);
     bytesSent := over (bytesSent new) (bytesSent old);
     bytesReceived := over (bytesReceived new) (bytesReceived old);
     messagesRelayed := over (messagesRelayed new) (messagesRelayed old);
     tokenHolds := over (tokenHolds new) (tokenHolds old);
     lastTokenHold := over (lastTokenHold new) (lastTokenHold old);
     node_id := over (node_id new) (node_id old);
     label := over (label new) (label old);
     hasToken := over (hasToken new) (hasToken old) |}.

Definition set_lastUpdated (t : Z) (n : NodeRec) : NodeRec :=
  mkNode (ip n) (port n) (neighbors n) (status n) (version n) (socket n)
         (lastSeen n) (Val t) (bytesSent n) (bytesReceived n)
         (messagesRelayed n) (tokenHolds n) (lastTokenHold n)
         (node_id n) (label n) (hasToken n).

Definition set_neighbors (l : list string) (n : NodeRec) : NodeRec :=
  mkNode (ip n) (port n) (Val l) (status n) (version n) (socket n)
         (lastSeen n) (lastUpdated n) (bytesSent n) (bytesReceived n)
         (messagesRelayed n) (tokenHolds n) (lastTokenHold n)
         (node_id n) (label n) (hasToken n).

Definition set_counters (bs br mr : Z) (n : NodeRec) : NodeRec :=
  mkNode (ip n) (port n) (neighbors n) (status n) (version n) (socket n)
         (lastSeen n) (lastUpdated n) (Val bs) (Val br) (Val mr)
         (tokenHolds n) (lastTokenHold n)
         (node_id n) (label n) (hasToken n).

Definition set_tokenHold (t : Z) (n : NodeRec) : NodeRec :=
  mkNode (ip n) (port n) (neighbors n) (status n) (version n) (socket n)
         (lastSeen n) (lastUpdated n) (bytesSent n) (bytesReceived n)
         (messagesRelayed n) (Val (or0 (tokenHolds n) + 1)) (Val t)
         (node_id n) (label n) (hasToken n).

Record Edge : Type := mkEdge {
  edge_id : string;
  from : string;
  to : string;
  type : string
}.

Record Topology : Type := mkTopology {
  topo_nodes : list NodeRec;
  edges : list Edge
}.

(** [tokenStatus] always has its six properties; each is a value or
    [null] ([None]). *)
Record TokenStatus : Type := mkTokenStatus {
  currentHolder : option string;
  sequence : option Z;
  phase : option string;
  traversalDepth : option Z;
  visitedCount : option Z;
  lastMovement : option Z
}.

(** The [data] of a [token_status] report, as far as the monitor reads it. *)
Record TokenData : Type := mkTokenData {
  td_currentHolder : field string;
  td_sequence : field Z;
  td_phase : field string;
  td_traversalDepth : field Z;
  td_visitedCount : field Z
}.

Record TokenMovement : Type := mkMovement {
  mv_from : string;
  mv_to : field string;
  mv_timestamp : Z;
  mv_sequence : field Z;
  mv_phase : field string;
  mv_depth : field Z
}.

Record Statistics : Type := mkStatistics {
  totalNodes : Z;
  activeNodes : Z;
  totalBandwidth : Z;
  stat_messagesRelayed : Z;
  tokenCirculations : Z;
  averageTokenHoldTime : number;
  networkEfficiency : number;
  dfsCompletionRate : number
}.

(** The [data] of a [topology_update] report. *)
Record TopologyData : Type := mkTopologyData {
  tu_nodeId : field string;
  tu_neighbors : field (list string)
}.

(** The [data] of a [statistics_update] report. *)
Record StatsData : Type := mkStatsData {
  su_nodeId : field string;
  su_bytesSent : field Z;
  su_bytesReceived : field Z;
  su_messagesRelayed : field Z
}.

(** An entry of [performanceMetrics]: the spread of the reports, stamped. *)
Record PerfRec : Type := mkPerf {
  pf_bytesSent : field Z;
  pf_bytesReceived : field Z;
  pf_messagesRelayed : field Z;
  pf_timestamp : Z
}.

(** The [data] of a [dfs_state] report. *)
Record DfsData : Type := mkDfsData {
  df_nodeId : field string;
  df_phase : field string;
  df_depth : field Z;
  df_visited : field bool;
  df_parent : field string;
  df_children : field (list string)
}.

Record DfsRec : Type := mkDfsRec {
  dfs_data : DfsData;
  dfs_timestamp : Z
}.

Record NetworkMonitor : Type := mkMonitor {
  nodes : gmap string NodeRec;
  topology : Topology;
  tokenStatus : TokenStatus;
  statistics : Statistics;
  dfsState : gmap string DfsRec;
  tokenHistory : list TokenMovement;
  performanceMetrics : gmap string PerfRec
}.

Definition initial_tokenStatus : TokenStatus :=
  {| currentHolder := None;
     sequence := Some 0;
     phase := Some "FORWARD"%string;
     traversalDepth := Some 0;
     visitedCount := Some 0;
     lastMovement := None |}.

Definition initial_statistics : Statistics :=
  {| totalNodes := 0;
     activeNodes := 0;
     totalBandwidth := 0;
     stat_messagesRelayed := 0;
     tokenCirculations := 0;
     averageTokenHoldTime := Finite 0;
     networkEfficiency := Finite 0;
     dfsCompletionRate := Finite 0 |}.

(** [constructor()]. *)
Definition fresh : NetworkMonitor :=
  {| nodes := ∅;
     topology := mkTopology [] [];
     tokenStatus := initial_tokenStatus;
     statistics := initial_statistics;
     dfsState := ∅;
     tokenHistory := [];
     performanceMetrics := ∅ |}.

(** Functional updates of one component of the monitor. *)
Definition with_nodes (m : gmap string NodeRec) (s : NetworkMonitor) :=
  mkMonitor m (topology s) (tokenStatus s) (statistics s) (dfsState s)
            (tokenHistory s) (performanceMetrics s).

Definition with_topology (t : Topology) (s : NetworkMonitor) :=
  mkMonitor (nodes s) t (tokenStatus s) (statistics s) (dfsState s)
            (tokenHistory s) (performanceMetrics s).

Definition with_tokenStatus (t : TokenStatus) (s : NetworkMonitor) :=
  mkMonitor (nodes s) (topology s) t (statistics s) (dfsState s)
            (tokenHistory s) (performanceMetrics s).

Definition with_statistics (st : Statistics) (s : NetworkMonitor) :=
  mkMonitor (nodes s) (topology s) (tokenStatus s) st (dfsState s)
            (tokenHistory s) (performanceMetrics s).

Definition with_dfsState (d : gmap string DfsRec) (s : NetworkMonitor) :=
  mkMonitor (nodes s) (topology s) (tokenStatus s) (statistics s) d
            (tokenHistory s) (performanceMetrics s).

Definition with_tokenHistory (h : list TokenMovement) (s : NetworkMonitor) :=
  mkMonitor (nodes s) (topology s) (tokenStatus s) (statistics s)
            (dfsState s) h (performanceMetrics s).

Definition with_performanceMetrics (p : gmap string PerfRec)
    (s : NetworkMonitor) :=
  mkMonitor (nodes s) (topology s) (tokenStatus s) (statistics s)
            (dfsState s) (tokenHistory s) p.

(** ** Operations of [NetworkMonitor] *)

(** [{...tokenStatus, ...tokenData}] on one property. *)
Definition merge_opt {A} (new : field A) (old : option A) : option A :=
  match new with
  | Absent => old
  | Null => None
  | Val a => Some a
  end.

(** [array.slice(-n)]. *)
Definition slice_last {A} (n : nat) (l : list A) : list A :=
  drop (length l - n) l.

(** [Array.from(map.values())]. *)
Definition values {A} (m : gmap string A) : list A :=
  (map_to_list m).*2.

Definition is_active (n : NodeRec) : bool :=
  field_eqb (status n) (Val "active"%string).

(** The loop that pushes [t[i] - t[i-1]] for [i = 1 .. length-1]. *)
Fixpoint intervals (l : list Z) : list Z :=
  match l with
  | a :: (b :: _) as t => (b - a) :: intervals t
  | _ => []
  end.

(** [reduce((a, b) => a + b, 0)]. *)
Definition sum_list (l : list Z) : Z := foldl Z.add 0 l.

(** [(num / den) * 100]. *)
Definition percentage (num den : Z) : number :=
  times_100 (js_div num den).

(** Timestamps of the movements of the last minute. *)
Definition tokenHoldTimes (now : Z) (h : list TokenMovement) : list Z :=
  map mv_timestamp (filter (λ m, now - 60000 < mv_timestamp m) h).

Definition calculateGlobalStatistics (now : Z) (s : NetworkMonitor)
    : NetworkMonitor :=
  let ns := values (nodes s) in
  let active := List.filter is_active ns in
  let total_nodes := Z.of_nat (length ns) in
  let active_nodes := Z.of_nat (length active) in
  let bandwidth :=
    foldl (λ sum n, sum + or0 (bytesSent n) + or0 (bytesReceived n)) 0 ns in
  let relayed := foldl (λ sum n, sum + or0 (messagesRelayed n)) 0 ns in
  let times := tokenHoldTimes now (tokenHistory s) in
  let average :=
    if decide (1 < length times)%nat
    then js_div (sum_list (intervals times))
                (Z.of_nat (length (intervals times)))
    else averageTokenHoldTime (statistics s) in
  let circulations := tokenCirculations (statistics s) in
  let totalMessages := circulations + relayed in
  let efficiency :=
    if decide (0 < totalMessages) then percentage relayed totalMessages
    else Finite 0 in
  let expectedVisits := active_nodes in
  let completion :=
    if decide (0 < expectedVisits)
    then percentage (default 0 (visitedCount (tokenStatus s))) expectedVisits
    else Finite 0 in
  with_statistics
    {| totalNodes := total_nodes;
       activeNodes := active_nodes;
       totalBandwidth := bandwidth;
       stat_messagesRelayed := relayed;
       tokenCirculations := circulations;
       averageTokenHoldTime := average;
       networkEfficiency := efficiency;
       dfsCompletionRate := completion |} s.

(** [array.findIndex(p)], [None] for -1. *)
Fixpoint findIndex {A} (p : A → bool) (l : list A) : option nat :=
  match l with
  | [] => None
  | x :: l' => if p x then Some 0%nat else S <$> findIndex p l'
  end.

Definition holds_token (ts : TokenStatus) (nodeId : string) : bool :=
  match currentHolder ts with
  | Some h => String.eqb h nodeId
  | None => false
  end.

(** The object literal [nodeData], an entry of [topology.nodes]: [id],
    [label], [status], [hasToken] and [neighbors] have a value of their
    own, which the final [...nodeInfo] overrides when the node has the
    property. *)
Definition nodeData (ts : TokenStatus) (nodeId : string) (n : NodeRec)
    : NodeRec :=
  mkNode (ip n) (port n)
         (over (neighbors n) (Val []))
         (over (status n) (Val "active"%string))
         (version n) (socket n) (lastSeen n) (lastUpdated n)
         (bytesSent n) (bytesReceived n) (messagesRelayed n)
         (tokenHolds n) (lastTokenHold n)
         (over (node_id n) (Val nodeId))
         (over (label n) (Val nodeId))
         (over (hasToken n) (Val (holds_token ts nodeId))).

Definition touches (nodeId : string) (e : Edge) : bool :=
  String.eqb (from e) nodeId || String.eqb (to e) nodeId.

Definition new_edge (nodeId neighborId : string) : Edge :=
  {| edge_id := nodeId +:+ "-" +:+ neighborId;
     from := nodeId;
     to := neighborId;
     type := "neighbor" |}.

(** The [forEach] over the neighbours: one push per known neighbour. *)
Definition push_edges (known : gmap string NodeRec) (nodeId : string)
    (nbs : list string) (es : list Edge) : list Edge :=
  foldl (λ acc nb,
           if decide (is_Some (known !! nb))
           then acc ++ [new_edge nodeId nb] else acc)
        es nbs.

Definition updateTopologyFromNode (nodeId : string) (nodeInfo : NodeRec)
    (s : NetworkMonitor) : NetworkMonitor :=
  let t := topology s in
  let data := nodeData (tokenStatus s) nodeId nodeInfo in
  let tnodes :=
    match findIndex (λ n, field_eqb (node_id n) (Val nodeId)) (topo_nodes t)
    with
    | Some i => <[i := data]> (topo_nodes t)
    | None => topo_nodes t ++ [data]
    end in
  let es :=
    if truthy_arr (neighbors nodeInfo)
    then push_edges (nodes s) nodeId (or_nil (neighbors nodeInfo))
           (List.filter (λ e, negb (touches nodeId e)) (edges t))
    else edges t in
  with_topology (mkTopology tnodes es) s.

(** [updateStatistics(statsData)]; [None] is the call without argument. *)
Definition updateStatistics (now : Z) (statsData : option StatsData)
    (s : NetworkMonitor) : NetworkMonitor :=
  let s1 :=
    match statsData with
    | Some d =>
        if truthy_str (su_nodeId d) then
          let k := match su_nodeId d with Val k => k | _ => ""%string end in
          match nodes s !! k with
          | Some node =>
              let node' :=
                set_counters (or0 (su_bytesSent d)) (or0 (su_bytesReceived d))
                             (or0 (su_messagesRelayed d)) node in
              let old := performanceMetrics s !! k in
              let perf :=
                {| pf_bytesSent :=
                     over (su_bytesSent d)
                          (from_option pf_bytesSent Absent old);
                   pf_bytesReceived :=
                     over (su_bytesReceived d)
                          (from_option pf_bytesReceived Absent old);
                   pf_messagesRelayed :=
                     over (su_messagesRelayed d)
                          (from_option pf_messagesRelayed Absent old);
                   pf_timestamp := now |} in
              with_performanceMetrics (<[k := perf]> (performanceMetrics s))
                (with_nodes (<[k := node']> (nodes s)) s)
          | None => s
          end
        else s
    | None => s
    end in
  calculateGlobalStatistics now s1.

Definition updateNode (now : Z) (nodeId : string) (nodeInfo : NodeRec)
    (s : NetworkMonitor) : NetworkMonitor :=
  let existingNode := from_option (λ n, n) empty_node (nodes s !! nodeId) in
  let updatedNode := set_lastUpdated now (spread_node existingNode nodeInfo) in
  let s1 := with_nodes (<[nodeId := updatedNode]> (nodes s)) s in
  let s2 := updateTopologyFromNode nodeId updatedNode s1 in
  updateStatistics now None s2.

(** The guard of the movement record:
    [previousHolder && previousHolder !== tokenData.currentHolder]. *)
Definition movement_recorded (previousHolder : option string)
    (reported : field string) : bool :=
  match previousHolder with
  | Some p => negb (String.eqb p "") && negb (field_eqb (Val p) reported)
  | None => false
  end.

(** The object pushed on [tokenHistory]. *)
Definition movement_of (previousHolder : option string) (now : Z)
    (tokenData : TokenData) : TokenMovement :=
  {| mv_from := default ""%string previousHolder;
     mv_to := td_currentHolder tokenData;
     mv_timestamp := now;
     mv_sequence := td_sequence tokenData;
     mv_phase := td_phase tokenData;
     mv_depth := td_traversalDepth tokenData |}.

Definition bump_circulations (st : Statistics) : Statistics :=
  mkStatistics (totalNodes st) (activeNodes st) (totalBandwidth st)
               (stat_messagesRelayed st) (tokenCirculations st + 1)
               (averageTokenHoldTime st) (networkEfficiency st)
               (dfsCompletionRate st).

Definition updateTokenStatus (now : Z) (tokenData : TokenData)
    (s : NetworkMonitor) : NetworkMonitor :=
  let previousHolder := currentHolder (tokenStatus s) in
  let ts := tokenStatus s in
  let ts' :=
    {| currentHolder := merge_opt (td_currentHolder tokenData) (currentHolder ts);
       sequence := merge_opt (td_sequence tokenData) (sequence ts);
       phase := merge_opt (td_phase tokenData) (phase ts);
       traversalDepth := merge_opt (td_traversalDepth tokenData) (traversalDepth ts);
       visitedCount := merge_opt (td_visitedCount tokenData) (visitedCount ts);
       lastMovement := Some now |} in
  let s1 := with_tokenStatus ts' s in
  let s2 :=
    if movement_recorded previousHolder (td_currentHolder tokenData) then
      let record := movement_of previousHolder now tokenData in
      let pushed := tokenHistory s1 ++ [record] in
      let kept :=
        if decide (1000 < length pushed)%nat then slice_last 1000 pushed
        else pushed in
      with_statistics (bump_circulations (statistics s1))
        (with_tokenHistory kept s1)
    else s1 in
  if truthy_str (td_currentHolder tokenData) then
    let k := match td_currentHolder tokenData with
             | Val k => k | _ => ""%string end in
    match nodes s2 !! k with
    | Some node => with_nodes (<[k := set_tokenHold now node]> (nodes s2)) s2
    | None => s2
    end
  else s2.

Definition updateTopology (topologyData : TopologyData) (s : NetworkMonitor)
    : NetworkMonitor :=
  if truthy_str (tu_nodeId topologyData) then
    let k := match tu_nodeId topologyData with
             | Val k => k | _ => ""%string end in
    match nodes s !! k with
    | Some node =>
        let node' := set_neighbors (or_nil (tu_neighbors topologyData)) node in
        updateTopologyFromNode k node'
          (with_nodes (<[k := node']> (nodes s)) s)
    | None => s
    end
  else s.

Definition updateDfsState (now : Z) (dfsData : DfsData) (s : NetworkMonitor)
    : NetworkMonitor :=
  if truthy_str (df_nodeId dfsData) then
    let k := match df_nodeId dfsData with Val k => k | _ => ""%string end in
    let d := <[k := mkDfsRec dfsData now]> (dfsState s) in
    let ts := tokenStatus s in
    let ts' :=
      {| currentHolder := currentHolder ts;
         sequence := sequence ts;
         phase :=
           if truthy_str (df_phase dfsData)
           then merge_opt (df_phase dfsData) (phase ts) else phase ts;
         traversalDepth :=
           if truthy_num (df_depth dfsData)
           then merge_opt (df_depth dfsData) (traversalDepth ts)
           else traversalDepth ts;
         visitedCount := Some (Z.of_nat (size d));
         lastMovement := lastMovement ts |} in
    with_tokenStatus ts' (with_dfsState d s)
  else s.

Definition removeNode (now : Z) (nodeId : string) (s : NetworkMonitor)
    : NetworkMonitor :=
  let t := topology s in
  let s1 :=
    mkMonitor (delete nodeId (nodes s))
      (mkTopology
         (List.filter (λ n, negb (field_eqb (node_id n) (Val nodeId)))
            (topo_nodes t))
         (List.filter (λ e, negb (touches nodeId e)) (edges t)))
      (tokenStatus s) (statistics s)
      (delete nodeId (dfsState s))
      (tokenHistory s)
      (delete nodeId (performanceMetrics s)) in
  updateStatistics now None s1.

Definition reset (now : Z) (s : NetworkMonitor) : NetworkMonitor :=
  calculateGlobalStatistics now
    (mkMonitor ∅ (mkTopology [] []) initial_tokenStatus (statistics s)
               ∅ [] ∅).

(** ** The event store ([DatabaseManager]) *)

(** A parsed report, by its [type].  Every report carries a [data]
    object; that of a report of another type is not looked into. *)
Inductive Message : Type :=
  | node_info (nodeId : string) (data : NodeRec)
  | token_status (data : TokenData)
  | topology_update (data : TopologyData)
  | statistics_update (data : StatsData)
  | dfs_state (data : DfsData)
  | other (type : string).

(** A row of [network_events]: the AUTOINCREMENT [id], the session, the
    timestamp handed to [recordEvent], and [event_type] with [data]
    (kept together as the message).  The [node_id] column is not read by
    the playback path and is left out. *)
Record EventRow : Type := mkRow {
  row_id : Z;
  session_id : string;
  row_timestamp : Z;
  event : Message
}.

(** [network_events] is kept in insertion order, and may hold the rows
    of earlier runs of the server: the database file outlives them.
    [ending] counts the calls of [endRecordingSession] that are suspended
    on their queries. *)
Record Database : Type := mkDatabase {
  currentSessionId : option string;
  network_events : list EventRow;
  ending : nat
}.

Definition empty_database : Database := mkDatabase None [] 0.

(** [startRecordingSession]; [uuid] is the result of [uuidv4()], which is
    never the empty string, so that the tests [!this.currentSessionId] are
    tests for [null]. *)
Definition startRecordingSession (uuid : string) (db : Database) : Database :=
  mkDatabase (Some uuid) (network_events db) (ending db).

(** [endRecordingSession] is [async].  Up to its first [await]: nothing
    without a current session, else the call is suspended on its
    queries, with [currentSessionId] as it is. *)
Definition endRecordingSession (db : Database) : Database :=
  match currentSessionId db with
  | None => db
  | Some _ =>
      mkDatabase (currentSessionId db) (network_events db) (S (ending db))
  end.

(** The rest of a suspended [endRecordingSession], run once its three
    queries are done: [this.currentSessionId = null], whatever the
    current session is by then.  (The table [recording_sessions], which
    the queries update, is not modelled.) *)
Definition endRecordingSession_resumed (db : Database) : Database :=
  match ending db with
  | O => db
  | S n => mkDatabase None (network_events db) n
  end.

(** The [id] SQLite gives the next row of an AUTOINCREMENT table from
    which nothing is deleted: one more than the largest [id] in use. *)
Definition next_id (rows : list EventRow) : Z :=
  1 + foldr (λ r m, Z.max (row_id r) m) 0 rows.

(** [recordEvent]: nothing without a current session, else one INSERT,
    which is not awaited; the row is taken to be in the table when
    [recordEvent] returns. *)
Definition recordEvent (m : Message) (timestamp : Z) (db : Database)
    : Database :=
  match currentSessionId db with
  | None => db
  | Some sid =>
      let row :=
        {| row_id := next_id (network_events db);
           session_id := sid;
           row_timestamp := timestamp;
           event := m |} in
      mkDatabase (currentSessionId db) (network_events db ++ [row])
                 (ending db)
  end.

(** [ORDER BY timestamp ASC]: insertion into a list sorted by timestamp,
    after the rows that compare equal. *)
Fixpoint insert_by_timestamp (r : EventRow) (l : list EventRow)
    : list EventRow :=
  match l with
  | [] => [r]
  | x :: l' =>
      if decide (row_timestamp r < row_timestamp x) then r :: x :: l'
      else x :: insert_by_timestamp r l'
  end.

Definition order_by_timestamp (l : list EventRow) : list EventRow :=
  foldl (λ acc r, insert_by_timestamp r acc) [] l.

(** [WHERE session_id = ?]. *)
Definition session_rows (sessionId : string) (db : Database) : list EventRow :=
  List.filter (λ r, String.eqb (session_id r) sessionId) (network_events db).

Definition getRecordingEvents (sessionId : string) (db : Database)
    : list EventRow :=
  order_by_timestamp (session_rows sessionId db).

(** ** Playback ([startPlayback]) *)

Inductive PlaybackEmit : Type :=
  | playback_event (e : EventRow)
  | playback_complete.

(** The closure of the interval callback: the loaded events, the index,
    whether the interval is still set, and what it has sent to the
    socket. *)
Record Playback : Type := mkPlayback {
  events : list EventRow;
  eventIndex : nat;
  playbackInterval : bool;
  sent : list PlaybackEmit
}.

Definition startPlayback (sessionId : string) (db : Database) : Playback :=
  {| events := getRecordingEvents sessionId db;
     eventIndex := 0;
     playbackInterval := true;
     sent := [] |}.

(** One firing of the interval. *)
Definition tick (p : Playback) : Playback :=
  if playbackInterval p then
    match events p !! eventIndex p with
    | None =>
        mkPlayback (events p) (eventIndex p) false
                   (sent p ++ [playback_complete])
    | Some e =>
        mkPlayback (events p) (S (eventIndex p)) true
                   (sent p ++ [playback_event e])
    end
  else p.

Definition ticks (k : nat) (p : Playback) : Playback := Nat.iter k tick p.

(** [clearInterval] on the interval of a closure. *)
Definition clearInterval (p : Playback) : Playback :=
  mkPlayback (events p) (eventIndex p) false (sent p).

(** What one firing of the interval sends. *)
Definition emission (p : Playback) : list PlaybackEmit :=
  if playbackInterval p then
    match events p !! eventIndex p with
    | None => [playback_complete]
    | Some e => [playback_event e]
    end
  else [].

(** The socket of an observer: the intervals [startPlayback] has set for
    it, in the order of their creation; the property
    [socket.playbackInterval], which is the position of one of them, or
    [None] while it is [undefined] or [null]; and what the socket was
    sent. *)
Record Observer : Type := mkObserver {
  timers : list Playback;
  socket_playbackInterval : option nat;
  received : list PlaybackEmit
}.

Definition new_observer : Observer := mkObserver [] None [].

(** [startPlayback] is [async]: nothing happens to the socket until the
    [await] of [getRecordingEvents] returns.  From there: the interval is
    set on the loaded events and stored in [socket.playbackInterval], over
    whatever was stored there. *)
Definition playback_loaded (sessionId : string) (db : Database)
    (o : Observer) : Observer :=
  mkObserver (timers o ++ [startPlayback sessionId db])
             (Some (length (timers o))) (received o).

(** [stopPlayback]: clears the interval stored on the socket, if any. *)
Definition stopPlayback (o : Observer) : Observer :=
  match socket_playbackInterval o with
  | Some i =>
      mkObserver (alter clearInterval i (timers o)) None (received o)
  | None => o
  end.

(** The interval at position [i] fires. *)
Definition interval_fires (o : Observer) (i : nat) : Observer :=
  match timers o !! i with
  | Some p =>
      mkObserver (<[i := tick p]> (timers o)) (socket_playbackInterval o)
                 (received o ++ emission p)
  | None => o
  end.

Definition fire_all (fired : list nat) (o : Observer) : Observer :=
  foldl interval_fires o fired.

(** ** The server ([TokenRingMonitorServer]) *)

Inductive Payload : Type :=
  | p_node (nodeId : string) (n : NodeRec)
  | p_token (d : TokenData)
  | p_topology (d : TopologyData)
  | p_stats (d : StatsData)
  | p_dfs (d : DfsData)
  | p_disconnected (nodeId : string)
  | p_recording (recording : bool).

Record Server : Type := mkServer {
  connectedNodes : gmap string NodeRec;
  networkMonitor : NetworkMonitor;
  database : Database;
  isRecording : bool;
  emitted : list (string * Payload)
}.

Definition initial_server : Server :=
  mkServer ∅ fresh empty_database false [].

(** The state of one TCP connection: the closure variables [nodeId] and
    [buffer] of its handlers, and the socket. *)
Record Conn : Type := mkConn {
  conn_socket : nat;
  conn_nodeId : option string;
  buffer : string;
  destroyed : bool
}.

Definition new_conn (sock : nat) : Conn := mkConn sock None "" false.

Definition broadcastToClients (ev : string) (d : Payload) (sv : Server)
    : Server :=
  mkServer (connectedNodes sv) (networkMonitor sv) (database sv)
           (isRecording sv) (emitted sv ++ [(ev, d)]).

Definition with_monitor (m : NetworkMonitor) (sv : Server) : Server :=
  mkServer (connectedNodes sv) m (database sv) (isRecording sv) (emitted sv).

(** [{...data, socket, lastSeen: timestamp, status: 'active'}]. *)
Definition stamp_nodeInfo (sock : nat) (timestamp : Z) (data : NodeRec)
    : NodeRec :=
  mkNode (ip data) (port data) (neighbors data) (Val "active"%string)
         (version data) (Val sock) (Val timestamp) (lastUpdated data)
         (bytesSent data) (bytesReceived data) (messagesRelayed data)
         (tokenHolds data) (lastTokenHold data)
         (node_id data) (label data) (hasToken data).

Definition handleNodeInfo (sock : nat) (nodeId : string) (data : NodeRec)
    (timestamp : Z) (sv : Server) : Server :=
  let nodeInfo := stamp_nodeInfo sock timestamp data in
  let sv1 :=
    mkServer (<[nodeId := nodeInfo]> (connectedNodes sv))
             (updateNode timestamp nodeId nodeInfo (networkMonitor sv))
             (database sv) (isRecording sv) (emitted sv) in
  broadcastToClients "node_info" (p_node nodeId nodeInfo) sv1.

Definition handleTokenStatus (data : TokenData) (timestamp : Z) (sv : Server)
    : Server :=
  broadcastToClients "token_status" (p_token data)
    (with_monitor (updateTokenStatus timestamp data (networkMonitor sv)) sv).

Definition handleTopologyUpdate (data : TopologyData) (sv : Server) : Server :=
  broadcastToClients "topology_update" (p_topology data)
    (with_monitor (updateTopology data (networkMonitor sv)) sv).

Definition handleStatisticsUpdate (data : StatsData) (timestamp : Z)
    (sv : Server) : Server :=
  broadcastToClients "statistics_update" (p_stats data)
    (with_monitor
       (updateStatistics timestamp (Some data) (networkMonitor sv)) sv).

Definition handleDfsState (data : DfsData) (timestamp : Z) (sv : Server)
    : Server :=
  broadcastToClients "dfs_state" (p_dfs data)
    (with_monitor (updateDfsState timestamp data (networkMonitor sv)) sv).

Definition handleNodeMessage (sock : nat) (message : Message) (timestamp : Z)
    (sv : Server) : Server :=
  let sv1 :=
    match message with
    | node_info nodeId data => handleNodeInfo sock nodeId data timestamp sv
    | token_status data => handleTokenStatus data timestamp sv
    | topology_update data => handleTopologyUpdate data sv
    | statistics_update data => handleStatisticsUpdate data timestamp sv
    | dfs_state data => handleDfsState data timestamp sv
    | other _ => sv
    end in
  if isRecording sv1 then
    mkServer (connectedNodes sv1) (networkMonitor sv1)
             (recordEvent message timestamp (database sv1))
             (isRecording sv1) (emitted sv1)
  else sv1.

Definition startRecording (uuid : string) (sv : Server) : Server :=
  if isRecording sv then sv
  else
    broadcastToClients "recording_status" (p_recording true)
      (mkServer (connectedNodes sv) (networkMonitor sv)
                (startRecordingSession uuid (database sv)) true (emitted sv)).

Definition stopRecording (sv : Server) : Server :=
  if isRecording sv then
    broadcastToClients "recording_status" (p_recording false)
      (mkServer (connectedNodes sv) (networkMonitor sv)
                (endRecordingSession (database sv)) false (emitted sv))
  else sv.

(** The body of the [try] block for one parsed line: dispatch, then
    remember the [nodeId] of a [node_info]. *)
Definition deliver (timestamp : Z) (message : Message) (st : Conn * Server)
    : Conn * Server :=
  let '(c, sv) := st in
  let sv' := handleNodeMessage (conn_socket c) message timestamp sv in
  let c' :=
    match message with
    | node_info nodeId _ =>
        mkConn (conn_socket c) (Some nodeId) (buffer c) (destroyed c)
    | _ => c
    end in
  (c', sv').

(** The [close] handler of a connection. *)
Definition on_close (c : Conn) (sv : Server) : Conn * Server :=
  let c' := mkConn (conn_socket c) (conn_nodeId c) (buffer c) true in
  match conn_nodeId c with
  | Some nodeId =>
      if negb (String.eqb nodeId "")
         && bool_decide (is_Some (connectedNodes sv !! nodeId))
      then
        (c', broadcastToClients "node_disconnected" (p_disconnected nodeId)
               (mkServer (delete nodeId (connectedNodes sv))
                         (networkMonitor sv) (database sv) (isRecording sv)
                         (emitted sv)))
      else (c', sv)
  | None => (c', sv)
  end.

(** ** The line framer (the [data] handler of a connection) *)

Definition newline : Ascii.ascii := Ascii.ascii_of_nat 10.

(** [str.split('\n')]: never empty. *)
Fixpoint split_newline (s : string) : list string :=
  match s with
  | EmptyString => [EmptyString]
  | String ch s' =>
      match split_newline s' with
      | [] => []
      | piece :: pieces =>
          if Ascii.eqb ch newline then EmptyString :: piece :: pieces
          else String ch piece :: pieces
      end
  end.

Definition is_space (ch : Ascii.ascii) : bool :=
  let n := Ascii.nat_of_ascii ch in
  ((9 <=? n) && (n <=? 13) || (n =? 32))%nat.

(** [!str.trim()]: only white space (of the ASCII range). *)
Fixpoint is_blank (s : string) : bool :=
  match s with
  | EmptyString => true
  | String ch s' => is_space ch && is_blank s'
  end.

Section Framer.

(** [JSON.parse] followed by the reading of the report's properties;
    [None] when it throws. *)
Variable JSON_parse : string → option Message.

(** The body of the [forEach] for one candidate line. *)
Definition on_line (timestamp : Z) (st : Conn * Server) (messageStr : string)
    : Conn * Server :=
  if is_blank messageStr then st
  else
    match JSON_parse messageStr with
    | Some message => deliver timestamp message st
    | None => st
    end.

Definition on_data (timestamp : Z) (data : string) (st : Conn * Server)
    : Conn * Server :=
  let '(c, sv) := st in
  let messages := split_newline (buffer c +:+ data) in
  let c1 :=
    mkConn (conn_socket c) (conn_nodeId c) (List.last messages EmptyString)
           (destroyed c) in
  foldl (on_line timestamp) (c1, sv) (removelast messages).

End Framer.

(** ** Sequences of operations *)

Inductive Op : Type :=
  | OpUpdateNode (now : Z) (nodeId : string) (nodeInfo : NodeRec)
  | OpUpdateTopology (data : TopologyData)
  | OpUpdateTokenStatus (now : Z) (data : TokenData)
  | OpUpdateStatistics (now : Z) (data : option StatsData)
  | OpUpdateDfsState (now : Z) (data : DfsData)
  | OpRemoveNode (now : Z) (nodeId : string)
  | OpReset (now : Z).

Definition apply_op (s : NetworkMonitor) (o : Op) : NetworkMonitor :=
  match o with
  | OpUpdateNode now nodeId nodeInfo => updateNode now nodeId nodeInfo s
  | OpUpdateTopology data => updateTopology data s
  | OpUpdateTokenStatus now data => updateTokenStatus now data s
  | OpUpdateStatistics now data => updateStatistics now data s
  | OpUpdateDfsState now data => updateDfsState now data s
  | OpRemoveNode now nodeId => removeNode now nodeId s
  | OpReset now => reset now s
  end.

(** The state after the operations [ops], from [s]. *)
Definition run (ops : list Op) (s : NetworkMonitor) : NetworkMonitor :=
  foldl apply_op s ops.

(** A sequence of [token_status] reports, each with the time it is applied
    at. *)
Definition apply_token_updates (ds : list (Z * TokenData))
    (s : NetworkMonitor) : NetworkMonitor :=
  foldl (λ s '(now, d), updateTokenStatus now d s) s ds.

(** The records the guard of [updateTokenStatus] lets through, when the
    holder before the sequence is [prev]. *)
Fixpoint movements (prev : option string) (ds : list (Z * TokenData))
    : list TokenMovement :=
  match ds with
  | [] => []
  | (now, d) :: ds' =>
      let rest := movements (merge_opt (td_currentHolder d) prev) ds' in
      if movement_recorded prev (td_currentHolder d)
      then movement_of prev now d :: rest
      else rest
  end.

(** The count as the specification words it: the updates by which
    [currentHolder] changes to a different non-null value from a non-null
    previous holder. *)
Definition holder_changed (prev new : option string) : bool :=
  match prev, new with
  | Some p, Some h => negb (String.eqb p h)
  | _, _ => false
  end.

Fixpoint claimed_circulations (prev : option string)
    (ds : list (Z * TokenData)) : Z :=
  match ds with
  | [] => 0
  | (_, d) :: ds' =>
      let new := merge_opt (td_currentHolder d) prev in
      (if holder_changed prev new then 1 else 0)
      + claimed_circulations new ds'
  end.

(** A report that names a holder: a non-empty string. *)
Definition names_holder (d : Z * TokenData) : Prop :=
  truthy_str (td_currentHolder d.2) = true.

(** A sequence of [node_info] reports of one connection for one node. *)
Definition apply_node_infos (sock : nat) (nodeId : string)
    (rs : list (Z * NodeRec)) (sv : Server) : Server :=
  foldl (λ sv '(now, d), handleNodeInfo sock nodeId d now sv) sv rs.

(** The value of one property after the reports [rs], by spread: that of
    the last report that has the property. *)
Definition last_supplied {A} (proj : NodeRec → field A)
    (rs : list (Z * NodeRec)) : field A :=
  foldl (λ acc r, over (proj r.2) acc) Absent rs.

(** The value as the specification words it: the last non-null one. *)
Definition last_non_null {A} (proj : NodeRec → field A)
    (rs : list (Z * NodeRec)) : field A :=
  foldl (λ acc r, match proj r.2 with Val v => Val v | _ => acc end)
        Absent rs.

(** Both endpoints of every edge are keys of [nodes]. *)
Definition edges_closed (s : NetworkMonitor) : Prop :=
  ∀ e, e ∈ edges (topology s) →
       is_Some (nodes s !! from e) ∧ is_Some (nodes s !! to e).

(** Reports whose [messagesRelayed] counter is not negative. *)
Definition nonneg_node (n : NodeRec) : Prop :=
  0 ≤ or0 (messagesRelayed n).

Definition nonneg_op (o : Op) : Prop :=
  match o with
  | OpUpdateNode _ _ nodeInfo => nonneg_node nodeInfo
  | OpUpdateStatistics _ (Some d) => 0 ≤ or0 (su_messagesRelayed d)
  | _ => True
  end.

(** The statistics are those a recomputation at time [now] gives. *)
Definition statistics_current (now : Z) (s : NetworkMonitor) : Prop :=
  statistics (calculateGlobalStatistics now s) = statistics s.

(** The order of playback as the specification words it: by the ordinal
    [id] of the rows. *)
Fixpoint insert_by_id (r : EventRow) (l : list EventRow) : list EventRow :=
  match l with
  | [] => [r]
  | x :: l' =>
      if decide (row_id r < row_id x) then r :: x :: l'
      else x :: insert_by_id r l'
  end.

Definition order_by_id (l : list EventRow) : list EventRow :=
  foldl (λ acc r, insert_by_id r acc) [] l.

(** The complete lines of a stream and what follows the last newline. *)
Definition complete_lines (stream : string) : list string :=
  removelast (split_newline stream).

Definition remainder (stream : string) : string :=
  List.last (split_newline stream) EmptyString.

(** [chunks.join('')]. *)
Definition concat_chunks (chunks : list string) : string :=
  foldr String.append EmptyString chunks.

Fixpoint has_newline (s : string) : bool :=
  match s with
  | EmptyString => false
  | String ch s' => Ascii.eqb ch newline || has_newline s'
  end.

(** A stand-in for [JSON.parse] on two lines: the truncated object of the
    scenario is rejected, one fixed line is a [node_info] report. *)
Definition quote : string := String (Ascii.ascii_of_nat 34) EmptyString.

Definition truncated_line : string :=
  "{" +:+ quote +:+ "type" +:+ quote +:+ ":".

Definition sample_node : NodeRec :=
  mkNode (Val "10.0.0.1"%string) (Val 8001) (Val []) (Val "active"%string)
         (Val "1.0.0"%string) Absent Absent Absent Absent Absent Absent
         Absent Absent Absent Absent Absent.

Definition node_info_line : string :=
  "{" +:+ quote +:+ "type" +:+ quote +:+ ":" +:+ quote +:+ "node_info"
  +:+ quote +:+ "}".

Definition sample_parse (s : string) : option Message :=
  if String.eqb s node_info_line
  then Some (node_info "node_A" sample_node)
  else None.

(** The candidate lines a connection hands to [JSON.parse] over a
    sequence of reads, each with the time of the read that completed it,
    and the buffer left at the end. *)
Fixpoint tagged_lines (buf : string) (chunks : list (Z * string))
    : list (Z * string) :=
  match chunks with
  | [] => []
  | (now, data) :: rest =>
      map (pair now) (complete_lines (buf +:+ data))
      ++ tagged_lines (remainder (buf +:+ data)) rest
  end.

Fixpoint final_buffer (buf : string) (chunks : list (Z * string)) : string :=
  match chunks with
  | [] => buf
  | (_, data) :: rest => final_buffer (remainder (buf +:+ data)) rest
  end.

(** The reads of one connection. *)
Definition feed (JSON_parse : string → option Message)
    (chunks : list (Z * string)) (st : Conn * Server) : Conn * Server :=
  foldl (λ st '(now, data), on_data JSON_parse now data st) st chunks.

(** The lines that are not blank and parse. *)
Definition accepted (JSON_parse : string → option Message)
    (ls : list (Z * string)) : list (Z * Message) :=
  omap (λ '(now, l), if is_blank l then None else pair now <$> JSON_parse l)
       ls.

Definition set_buffer (b : string) (c : Conn) : Conn :=
  mkConn (conn_socket c) (conn_nodeId c) b (destroyed c).

Definition deliver_all (ms : list (Z * Message)) (st : Conn * Server)
    : Conn * Server :=
  foldl (λ st '(now, m), deliver now m st) st ms.

(** No node has a negative [messagesRelayed]. *)
Definition nodes_nonneg (s : NetworkMonitor) : Prop :=
  ∀ k n, nodes s !! k = Some n → nonneg_node n.

(** What the stored efficiency satisfies between recomputations. *)
Definition efficiency_ok (st : Statistics) : Prop :=
  0 ≤ tokenCirculations st
  ∧ 0 ≤ stat_messagesRelayed st
  ∧ between 0 100 (networkEfficiency st)
  ∧ (stat_messagesRelayed st = 0 → number_eq (networkEfficiency st) (Finite 0)).

(** The ratio of the specification: 0 without activity. *)
Definition efficiency_formula (relayed circulations : Z) : number :=
  if decide (relayed + circulations = 0) then Finite 0
  else percentage relayed (relayed + circulations).

(** The counters of the efficiency are in the range where doubles count
    exactly: their sum, which the code computes, is at most [2 ^ 53]. *)
Definition counts_exactly (st : Statistics) : Prop :=
  stat_messagesRelayed st + tokenCirculations st ≤ 2 ^ 53.

(** The order [ORDER BY timestamp ASC] asks for. *)
Definition by_timestamp (x y : EventRow) : Prop :=
  row_timestamp x ≤ row_timestamp y.

(** ** Read-only views of [NetworkMonitor] *)

(** An entry of [getTokenPath]. *)
Record TokenPathEntry : Type := mkPathEntry {
  tp_from : string;
  tp_to : field string;
  tp_timestamp : Z;
  tp_sequence : field Z
}.

Definition path_entry (movement : TokenMovement) : TokenPathEntry :=
  {| tp_from := mv_from movement;
     tp_to := mv_to movement;
     tp_timestamp := mv_timestamp movement;
     tp_sequence := mv_sequence movement |}.

(** [getTokenPath()]: the last 10 movements. *)
Definition getTokenPath (s : NetworkMonitor) : list TokenPathEntry :=
  map path_entry (slice_last 10 (tokenHistory s)).

(** The object [getTopology()] returns. *)
Record TopologyView : Type := mkTopologyView {
  view_nodes : list NodeRec;
  view_edges : list Edge;
  tokenPath : list TokenPathEntry;
  lastUpdate : Z
}.

Definition getTopology (now : Z) (s : NetworkMonitor) : TopologyView :=
  {| view_nodes := topo_nodes (topology s);
     view_edges := edges (topology s);
     tokenPath := getTokenPath s;
     lastUpdate := now |}.

(** [getNodeById(nodeId)]. *)
Definition getNodeById (nodeId : string) (s : NetworkMonitor)
    : option NodeRec :=
  nodes s !! nodeId.

(** ** Invariants of the monitor *)

(** No two distinct nodes are linked in both directions. *)
Definition one_way (es : list Edge) : Prop :=
  ∀ e1 e2, e1 ∈ es → e2 ∈ es →
           from e1 = to e2 → to e1 = from e2 → from e1 = to e1.

(** Every edge is the object [updateTopologyFromNode] builds. *)
Definition edges_well_formed (es : list Edge) : Prop :=
  Forall (λ e, e = new_edge (from e) (to e)) es.

(** The four aggregates computed from the nodes alone are those a
    recomputation gives. *)
Definition node_aggregates_current (s : NetworkMonitor) : Prop :=
  ∀ now,
    let st := statistics s in
    let st' := statistics (calculateGlobalStatistics now s) in
    totalNodes st = totalNodes st'
    ∧ activeNodes st = activeNodes st'
    ∧ totalBandwidth st = totalBandwidth st'
    ∧ stat_messagesRelayed st = stat_messagesRelayed st'.

(** Two node objects that the statistics cannot tell apart. *)
Definition same_counters (n n' : NodeRec) : Prop :=
  status n = status n' ∧ bytesSent n = bytesSent n'
  ∧ bytesReceived n = bytesReceived n'
  ∧ messagesRelayed n = messagesRelayed n'.

(** ** Events of the server *)

(** What happens to the server: a parsed report arrives on a socket, a
    connection closes, recording is started or stopped, or the queries of
    a suspended [endRecordingSession] are done and the call runs to its
    end. *)
Inductive ServerEvent : Type :=
  | EvMessage (sock : nat) (message : Message) (timestamp : Z)
  | EvClose (c : Conn)
  | EvStartRecording (uuid : string)
  | EvStopRecording
  | EvSessionEnded.

Definition server_step (sv : Server) (ev : ServerEvent) : Server :=
  match ev with
  | EvMessage sock message timestamp =>
      handleNodeMessage sock message timestamp sv
  | EvClose c => (on_close c sv).2
  | EvStartRecording uuid => startRecording uuid sv
  | EvStopRecording => stopRecording sv
  | EvSessionEnded =>
      mkServer (connectedNodes sv) (networkMonitor sv)
               (endRecordingSession_resumed (database sv))
               (isRecording sv) (emitted sv)
  end.

Definition run_server (evs : list ServerEvent) (sv : Server) : Server :=
  foldl server_step sv evs.

(** The operation of the monitor a report is dispatched to. *)
Definition op_of_message (sock : nat) (timestamp : Z) (message : Message)
    : list Op :=
  match message with
  | node_info nodeId data =>
      [OpUpdateNode timestamp nodeId (stamp_nodeInfo sock timestamp data)]
  | token_status data => [OpUpdateTokenStatus timestamp data]
  | topology_update data => [OpUpdateTopology data]
  | statistics_update data => [OpUpdateStatistics timestamp (Some data)]
  | dfs_state data => [OpUpdateDfsState timestamp data]
  | other _ => []
  end.

Definition ops_of_event (ev : ServerEvent) : list Op :=
  match ev with
  | EvMessage sock message timestamp => op_of_message sock timestamp message
  | _ => []
  end.

(** The broadcast a report causes. *)
Definition broadcast_of (sock : nat) (timestamp : Z) (message : Message)
    : list (string * Payload) :=
  match message with
  | node_info nodeId data =>
      [("node_info"%string,
        p_node nodeId (stamp_nodeInfo sock timestamp data))]
  | token_status data => [("token_status"%string, p_token data)]
  | topology_update data => [("topology_update"%string, p_topology data)]
  | statistics_update data => [("statistics_update"%string, p_stats data)]
  | dfs_state data => [("dfs_state"%string, p_dfs data)]
  | other _ => []
  end.

(** The messages of a list of server events, as the recorder sees them. *)
Definition dispatch (sv : Server) (m : nat * Message * Z) : Server :=
  handleNodeMessage m.1.1 m.1.2 m.2 sv.

(** The reports among a list of server events, with their timestamps. *)
Definition reports_of (evs : list ServerEvent) : list (Message * Z) :=
  omap (λ ev, match ev with
              | EvMessage _ message timestamp => Some (message, timestamp)
              | _ => None
              end) evs.

(** An event other than a recording command. *)
Definition no_recording_command (ev : ServerEvent) : Prop :=
  match ev with
  | EvStartRecording _ | EvStopRecording => False
  | _ => True
  end.

(** The node a report names, when its [nodeId] is truthy. *)
Definition truthy_id (f : field string) : list string :=
  match f with
  | Val k => if String.eqb k "" then [] else [k]
  | _ => []
  end.

(** A node object whose [id] property, if it has one, is the name the
    node is stored under. *)
Definition id_agrees (nodeId : string) (n : NodeRec) : Prop :=
  node_id n = Absent ∨ node_id n = Val nodeId.

(** A sequence of [dfs_state] reports, each with its time. *)
Definition apply_dfs_reports (ds : list (Z * DfsData)) (s : NetworkMonitor)
    : NetworkMonitor :=
  foldl (λ s '(now, d), updateDfsState now d s) s ds.

(** * Properties *)

(** ** Token movements (C1) *)

Lemma slice_last_short {A} (n : nat) (l : list A) :
  (length l ≤ n)%nat → slice_last n l = l.
Proof.
  intros H. unfold slice_last.
  replace (length l - n)%nat with 0%nat by lia. reflexivity.
Qed.

Lemma slice_last_snoc {A} (n : nat) (l : list A) (x : A) :
  slice_last n (slice_last n l ++ [x]) = slice_last n (l ++ [x]).
Proof.
  destruct (decide (length l ≤ n)%nat) as [Hle | Hgt].
  - rewrite (slice_last_short n l Hle). reflexivity.
  - unfold slice_last.
    rewrite length_app, length_drop, !length_app. simpl.
    rewrite <- (drop_app_le l [x] (length l - n)) by lia.
    rewrite drop_drop. f_equal. lia.
Qed.

(** The trimming after a push is [slice(-1000)] in both branches. *)
Lemma trim_is_slice {A} (l : list A) :
  (if decide (1000 < length l)%nat then slice_last 1000 l else l)
  = slice_last 1000 l.
Proof.
  destruct (decide (1000 < length l)%nat); [reflexivity |].
  symmetry. apply slice_last_short. lia.
Qed.

(** What one [updateTokenStatus] does to the holder, the history and the
    counter. *)
Lemma updateTokenStatus_holder now d s :
  currentHolder (tokenStatus (updateTokenStatus now d s))
  = merge_opt (td_currentHolder d) (currentHolder (tokenStatus s)).
Proof.
  unfold updateTokenStatus.
  destruct (movement_recorded _ _); simpl;
    destruct (truthy_str _); simpl; try reflexivity;
    destruct (_ !! _); reflexivity.
Qed.

Lemma updateTokenStatus_history now d s :
  tokenHistory (updateTokenStatus now d s)
  = if movement_recorded (currentHolder (tokenStatus s)) (td_currentHolder d)
    then slice_last 1000
           (tokenHistory s
            ++ [movement_of (currentHolder (tokenStatus s)) now d])
    else tokenHistory s.
Proof.
  unfold updateTokenStatus.
  destruct (movement_recorded _ _); simpl;
    destruct (truthy_str _); simpl; rewrite ?trim_is_slice; try reflexivity;
    destruct (_ !! _); simpl; rewrite ?trim_is_slice; reflexivity.
Qed.

Lemma updateTokenStatus_circulations now d s :
  tokenCirculations (statistics (updateTokenStatus now d s))
  = tokenCirculations (statistics s)
    + (if movement_recorded (currentHolder (tokenStatus s))
                            (td_currentHolder d)
       then 1 else 0).
Proof.
  unfold updateTokenStatus.
  destruct (movement_recorded _ _); simpl;
    destruct (truthy_str _); simpl; try lia;
    destruct (_ !! _); simpl; lia.
Qed.

Lemma apply_token_updates_spec ds : ∀ s all,
  tokenHistory s = slice_last 1000 all →
  let s' := apply_token_updates ds s in
  let ms := movements (currentHolder (tokenStatus s)) ds in
  tokenCirculations (statistics s')
  = tokenCirculations (statistics s) + Z.of_nat (length ms)
  ∧ tokenHistory s' = slice_last 1000 (all ++ ms).
Proof.
  induction ds as [| [now d] ds IH]; intros s all Hall; simpl.
  - rewrite app_nil_r. split; [lia | exact Hall].
  - specialize (IH (updateTokenStatus now d s)).
    rewrite updateTokenStatus_holder, updateTokenStatus_circulations in IH.
    rewrite updateTokenStatus_history in IH.
    destruct (movement_recorded _ _) eqn:Hrec.
    + specialize (IH (all ++ [movement_of (currentHolder (tokenStatus s)) now d])).
      destruct IH as [IH1 IH2].
      { rewrite Hall. apply slice_last_snoc. }
      unfold apply_token_updates in *. simpl in *.
      rewrite IH1, IH2. split; [lia |]. by rewrite <- app_assoc.
    + specialize (IH all Hall). destruct IH as [IH1 IH2].
      unfold apply_token_updates in *. simpl in *.
      rewrite IH1, IH2. split; [lia | reflexivity].
Qed.

(** C1, as amended: for every sequence of [token_status] reports applied to
    a fresh monitor, [tokenCirculations] is the number of reports that meet
    a non-empty previous holder different from the [currentHolder] they
    carry (a string, [null] or nothing), and [tokenHistory] holds exactly
    the records of those reports, one each and in order, cut to the last
    1000. *)
Theorem token_circulations_count (ds : list (Z * TokenData)) :
  let s := apply_token_updates ds fresh in
  tokenCirculations (statistics s)
  = Z.of_nat (length (movements None ds))
  ∧ tokenHistory s = slice_last 1000 (movements None ds).
Proof.
  destruct (apply_token_updates_spec ds fresh [] eq_refl) as [H1 H2].
  split; [exact H1 | exact H2].
Qed.

(** One report appends one record exactly when the guard holds. *)
Lemma one_record_per_movement now d s :
  (length (tokenHistory s) < 1000)%nat →
  tokenHistory (updateTokenStatus now d s)
  = if movement_recorded (currentHolder (tokenStatus s)) (td_currentHolder d)
    then tokenHistory s ++ [movement_of (currentHolder (tokenStatus s)) now d]
    else tokenHistory s.
Proof.
  intros Hlen. rewrite updateTokenStatus_history.
  destruct (movement_recorded _ _); [| reflexivity].
  apply slice_last_short. rewrite length_app. simpl. lia.
Qed.

(** When every report names a holder, the code's count is the
    specification's. *)
Lemma movements_claimed ds : ∀ prev,
  (∀ p, prev = Some p → p ≠ ""%string) →
  Forall names_holder ds →
  Z.of_nat (length (movements prev ds)) = claimed_circulations prev ds.
Proof.
  induction ds as [| [now d] ds IH]; intros prev Hprev Hall; [reflexivity |].
  inversion Hall as [| ? ? Hd Hds]; subst.
  unfold names_holder in Hd. simpl in Hd.
  destruct (td_currentHolder d) as [| | h] eqn:Hh; simpl in Hd; try discriminate.
  simpl. rewrite Hh. simpl.
  assert (Hnext : ∀ p, Some h = Some p → p ≠ ""%string).
  { intros p [= <-] ->. discriminate. }
  specialize (IH (Some h) Hnext Hds).
  destruct prev as [p |]; simpl.
  - assert (String.eqb p "" = false) as ->.
    { apply String.eqb_neq. by apply Hprev. }
    simpl. destruct (String.eqb p h); simpl; lia.
  - lia.
Qed.

(** C1 as stated fails: after node_A holds the token, a report whose
    [currentHolder] is [null] is counted and recorded, though the holder
    did not change to a non-null value. *)
Lemma null_holder_is_recorded :
  let ds := [(1000, mkTokenData (Val "node_A"%string) Absent Absent Absent Absent);
             (2000, mkTokenData Null Absent Absent Absent Absent)] in
  let s := apply_token_updates ds fresh in
  claimed_circulations None ds = 0
  ∧ tokenCirculations (statistics s) = 1
  ∧ map mv_to (tokenHistory s) = [Null].
Proof. vm_compute. auto. Qed.

(** ** Topology (C4, C9) *)

Lemma elem_of_List_filter {A} (p : A → bool) (l : list A) (x : A) :
  x ∈ List.filter p l ↔ x ∈ l ∧ p x = true.
Proof. rewrite !list_elem_of_In. apply filter_In. Qed.

Lemma push_edges_spec known nodeId nbs : ∀ es,
  push_edges known nodeId nbs es
  = es ++ map (new_edge nodeId)
            (List.filter (λ nb, bool_decide (is_Some (known !! nb))) nbs).
Proof.
  unfold push_edges.
  induction nbs as [| nb nbs IH]; intros es; simpl.
  - by rewrite app_nil_r.
  - rewrite IH. destruct (decide (is_Some (known !! nb))) as [H | H].
    + rewrite (bool_decide_eq_true_2 _ H). simpl. by rewrite <- app_assoc.
    + rewrite (bool_decide_eq_false_2 _ H). reflexivity.
Qed.

Lemma touches_false nodeId e :
  touches nodeId e = false ↔ from e ≠ nodeId ∧ to e ≠ nodeId.
Proof.
  unfold touches. rewrite orb_false_iff, !String.eqb_neq. reflexivity.
Qed.

Lemma field_eqb_Val (f : field string) (k : string) :
  field_eqb f (Val k) = true ↔ f = Val k.
Proof.
  destruct f as [| | x]; simpl; try (split; discriminate).
  rewrite String.eqb_eq. split; congruence.
Qed.

Lemma findIndex_Some {A} (p : A → bool) (l : list A) : ∀ i,
  findIndex p l = Some i → ∃ x, l !! i = Some x ∧ p x = true.
Proof.
  induction l as [| y l IH]; intros i H; simpl in H; [discriminate |].
  destruct (p y) eqn:Hp.
  - injection H as <-. eauto.
  - destruct (findIndex p l) as [j |]; simpl in H; [| discriminate].
    injection H as <-. apply (IH j eq_refl).
Qed.

Lemma findIndex_None {A} (p : A → bool) (l : list A) :
  findIndex p l = None → ∀ x, x ∈ l → p x = false.
Proof.
  induction l as [| y l IH]; intros H x Hx; simpl in H.
  - by apply not_elem_of_nil in Hx.
  - destruct (p y) eqn:Hp; [discriminate |].
    destruct (findIndex p l); [discriminate |].
    apply elem_of_cons in Hx as [-> | Hx]; auto.
Qed.

(** [calculateGlobalStatistics] writes [statistics] only. *)
Lemma calculateGlobalStatistics_frame now s :
  let s' := calculateGlobalStatistics now s in
  nodes s' = nodes s ∧ topology s' = topology s
  ∧ tokenStatus s' = tokenStatus s ∧ dfsState s' = dfsState s
  ∧ tokenHistory s' = tokenHistory s
  ∧ performanceMetrics s' = performanceMetrics s.
Proof. simpl. auto 10. Qed.

(** [updateTopologyFromNode] leaves [nodes] alone and keeps the edges
    closed. *)
Lemma updateTopologyFromNode_nodes nodeId n s :
  nodes (updateTopologyFromNode nodeId n s) = nodes s.
Proof. reflexivity. Qed.

Lemma updateTopologyFromNode_closed nodeId n s :
  is_Some (nodes s !! nodeId) →
  edges_closed s → edges_closed (updateTopologyFromNode nodeId n s).
Proof.
  intros Hk Hs e. unfold updateTopologyFromNode. simpl.
  destruct (truthy_arr (neighbors n)); [| apply Hs].
  rewrite push_edges_spec, elem_of_app.
  intros [He | He].
  - apply elem_of_List_filter in He as [He _]. by apply Hs.
  - change (map (new_edge nodeId)) with (fmap (M:=list) (new_edge nodeId)) in He.
    apply list_elem_of_fmap in He as (nb & -> & Hnb).
    apply elem_of_List_filter in Hnb as [_ Hnb].
    apply bool_decide_eq_true in Hnb. simpl. auto.
Qed.

(** After [updateTopologyFromNode] with a neighbour list, the edges that
    touch [nodeId] are the new ones only. *)
Lemma updateTopologyFromNode_edges nodeId n nbs s :
  neighbors n = Val nbs →
  edges (topology (updateTopologyFromNode nodeId n s))
  = List.filter (λ e, negb (touches nodeId e)) (edges (topology s))
    ++ map (new_edge nodeId)
         (List.filter (λ nb, bool_decide (is_Some (nodes s !! nb))) nbs).
Proof.
  intros Hn. unfold updateTopologyFromNode. simpl. rewrite Hn. simpl.
  apply push_edges_spec.
Qed.

Lemma edges_closed_insert k n s m' :
  nodes m' = <[k := n]> (nodes s) → topology m' = topology s →
  edges_closed s → edges_closed m'.
Proof.
  intros Hn Ht Hs e. rewrite Hn, Ht. intros He.
  destruct (Hs e He) as [Hf Hto].
  split; rewrite lookup_insert_is_Some; destruct (decide (k = from e));
    destruct (decide (k = to e)); auto.
Qed.

Lemma updateNode_nodes now nodeId nodeInfo s :
  nodes (updateNode now nodeId nodeInfo s)
  = <[nodeId :=
        set_lastUpdated now
          (spread_node (from_option (λ n, n) empty_node (nodes s !! nodeId))
                       nodeInfo)]> (nodes s).
Proof. reflexivity. Qed.

Lemma edges_closed_step s o : edges_closed s → edges_closed (apply_op s o).
Proof.
  intros Hs. destruct o as [now k n | d | now d | now d | now d | now k | now];
    simpl.
  - (* updateNode *)
    unfold updateNode, updateStatistics.
    match goal with
    | |- edges_closed (calculateGlobalStatistics _ ?x) =>
        assert (edges_closed x) as Hx; [| intros e; apply Hx]
    end.
    apply updateTopologyFromNode_closed.
    + simpl. rewrite lookup_insert_eq. eauto.
    + eapply edges_closed_insert; [reflexivity | reflexivity | exact Hs].
  - (* updateTopology *)
    unfold updateTopology.
    destruct (truthy_str _); [| exact Hs].
    destruct (nodes s !! _) as [node |] eqn:Hk; [| exact Hs].
    apply updateTopologyFromNode_closed.
    + simpl. rewrite lookup_insert_eq. eauto.
    + eapply edges_closed_insert; [reflexivity | reflexivity | exact Hs].
  - (* updateTokenStatus *)
    unfold updateTokenStatus.
    match goal with
    | |- edges_closed (if _ then match nodes ?x !! _ with _ => _ end else _) =>
        assert (edges_closed x) as Hx
    end.
    { destruct (movement_recorded _ _); exact Hs. }
    destruct (truthy_str _); [| exact Hx].
    destruct (nodes _ !! _) eqn:Hk; [| exact Hx].
    eapply edges_closed_insert; [reflexivity | reflexivity | exact Hx].
  - (* updateStatistics *)
    unfold updateStatistics.
    match goal with
    | |- edges_closed (calculateGlobalStatistics _ ?x) =>
        assert (edges_closed x) as Hx; [| intros e; apply Hx]
    end.
    destruct d as [d |]; [| exact Hs].
    destruct (truthy_str _); [| exact Hs].
    destruct (nodes s !! _) eqn:Hk; [| exact Hs].
    eapply edges_closed_insert; [reflexivity | reflexivity | exact Hs].
  - (* updateDfsState *)
    unfold updateDfsState. destruct (truthy_str _); exact Hs.
  - (* removeNode *)
    unfold removeNode, updateStatistics. intros e. simpl. intros He.
    apply elem_of_List_filter in He as [He Ht].
    apply negb_true_iff, touches_false in Ht as [Hf Hto].
    destruct (Hs e He) as [H1 H2].
    rewrite !lookup_delete_ne by congruence. auto.
  - (* reset *)
    intros e He. simpl in He. by apply not_elem_of_nil in He.
Qed.

Lemma removeNode_no_edge now nodeId s e :
  e ∈ edges (topology (removeNode now nodeId s)) →
  from e ≠ nodeId ∧ to e ≠ nodeId.
Proof.
  unfold removeNode, updateStatistics. simpl. intros He.
  apply elem_of_List_filter in He as [_ Ht].
  by apply negb_true_iff, touches_false in Ht.
Qed.

Lemma run_snoc ops o s : run (ops ++ [o]) s = apply_op (run ops s) o.
Proof. unfold run. by rewrite foldl_snoc. Qed.

(** C9: in every state reached from a fresh monitor by any sequence of
    its operations, both endpoints of every edge of [topology.edges] are
    keys of [nodes]; and after [removeNode] the removed node is no key of
    [nodes] and no edge touches it. *)
Theorem edges_between_known_nodes (ops : list Op) :
  let s := run ops fresh in
  Forall (λ e, is_Some (nodes s !! from e) ∧ is_Some (nodes s !! to e))
         (edges (topology s))
  ∧ ∀ now nodeId,
      let s' := removeNode now nodeId s in
      nodes s' !! nodeId = None
      ∧ Forall (λ e, from e ≠ nodeId ∧ to e ≠ nodeId
                     ∧ is_Some (nodes s' !! from e)
                     ∧ is_Some (nodes s' !! to e))
               (edges (topology s')).
Proof.
  assert (Hclosed : ∀ ops, edges_closed (run ops fresh)).
  { clear ops. induction ops as [| o ops IH] using rev_ind.
    - intros e He. simpl in He. by apply not_elem_of_nil in He.
    - rewrite run_snoc. by apply edges_closed_step. }
  split.
  - apply Forall_forall. apply Hclosed.
  - intros now nodeId. split.
    + unfold removeNode, updateStatistics. simpl. apply lookup_delete_eq.
    + apply Forall_forall. intros e He.
      destruct (removeNode_no_edge _ _ _ _ He) as [Hf Ht].
      pose proof (Hclosed (ops ++ [OpRemoveNode now nodeId]) e) as Hc.
      rewrite run_snoc in Hc. simpl in Hc. destruct (Hc He). auto.
Qed.

Lemma length_values {A} (m : gmap string A) :
  length (values m) = size m.
Proof. unfold values. by rewrite length_fmap, length_map_to_list. Qed.

Lemma totalNodes_size now s :
  totalNodes (statistics (calculateGlobalStatistics now s))
  = Z.of_nat (size (nodes s)).
Proof. simpl. by rewrite length_values. Qed.

(** What a [node_info] report does to the monitor. *)
Lemma handleNodeMessage_node_info sock nodeId d now sv :
  isRecording sv = false →
  networkMonitor (handleNodeMessage sock (node_info nodeId d) now sv)
  = updateNode now nodeId (stamp_nodeInfo sock now d) (networkMonitor sv).
Proof. intros Hrec. unfold handleNodeMessage. simpl. by rewrite Hrec. Qed.

Lemma updateNode_topology now nodeId nodeInfo s :
  topology (updateNode now nodeId nodeInfo s)
  = topology
      (updateTopologyFromNode nodeId
         (set_lastUpdated now
            (spread_node (from_option (λ n, n) empty_node (nodes s !! nodeId))
                         nodeInfo))
         (with_nodes (nodes (updateNode now nodeId nodeInfo s)) s)).
Proof. reflexivity. Qed.

Lemma updateNode_edges now nodeId nodeInfo nbs s :
  neighbors nodeInfo = Val nbs →
  edges (topology (updateNode now nodeId nodeInfo s))
  = List.filter (λ e, negb (touches nodeId e)) (edges (topology s))
    ++ map (new_edge nodeId)
         (List.filter
            (λ nb, bool_decide
                     (is_Some (nodes (updateNode now nodeId nodeInfo s) !! nb)))
            nbs).
Proof.
  intros Hn. rewrite updateNode_topology.
  rewrite (updateTopologyFromNode_edges _ _ nbs); [reflexivity |].
  simpl. by rewrite Hn.
Qed.

Lemma updateNode_totalNodes now nodeId nodeInfo s :
  totalNodes (statistics (updateNode now nodeId nodeInfo s))
  = Z.of_nat (size (nodes (updateNode now nodeId nodeInfo s))).
Proof.
  unfold updateNode, updateStatistics. rewrite totalNodes_size. reflexivity.
Qed.

(** C4, as amended: from the empty model, a [node_info] report of [a] with
    neighbours [[b]] and then one of [b] with neighbours [[a]] leave
    exactly one edge, [b → a] (no edge is made towards a node that has not
    reported yet, and none is added for [a] afterwards), and
    [totalNodes = 2]. *)
Theorem two_reports_one_edge (a b : string) (sa sb : nat) (ta tb : Z)
    (da db : NodeRec) :
  a ≠ b →
  neighbors da = Val [b] →
  neighbors db = Val [a] →
  let sv :=
    handleNodeMessage sb (node_info b db) tb
      (handleNodeMessage sa (node_info a da) ta initial_server) in
  edges (topology (networkMonitor sv)) = [new_edge b a]
  ∧ totalNodes (statistics (networkMonitor sv)) = 2.
Proof.
  intros Hab Ha Hb sv. subst sv.
  rewrite handleNodeMessage_node_info by reflexivity.
  rewrite handleNodeMessage_node_info by reflexivity.
  change (networkMonitor initial_server) with fresh.
  set (m1 := updateNode ta a (stamp_nodeInfo sa ta da) fresh).
  assert (Hn1 : nodes m1 = {[a := set_lastUpdated ta
                     (spread_node empty_node (stamp_nodeInfo sa ta da))]}).
  { subst m1. rewrite updateNode_nodes. simpl. rewrite lookup_empty.
    reflexivity. }
  assert (He1 : edges (topology m1) = []).
  { subst m1. rewrite (updateNode_edges _ _ _ [b]) by exact Ha.
    rewrite updateNode_nodes. simpl.
    rewrite bool_decide_eq_false_2; [reflexivity |].
    rewrite lookup_insert_ne by exact Hab. rewrite lookup_empty.
    by intros [? ?]. }
  split.
  - rewrite (updateNode_edges _ _ _ [a]) by exact Hb.
    rewrite He1, updateNode_nodes, Hn1. simpl.
    rewrite bool_decide_eq_true_2; [reflexivity |].
    rewrite lookup_insert_ne by congruence.
    rewrite lookup_singleton_eq. eauto.
  - rewrite updateNode_totalNodes, updateNode_nodes, Hn1.
    rewrite map_size_insert_None.
    + by rewrite map_size_singleton.
    + apply lookup_singleton_ne. congruence.
Qed.

Lemma two_reports_one_edge_witness :
  let da := set_neighbors ["node_B"%string] sample_node in
  let db := set_neighbors ["node_A"%string] sample_node in
  let sv :=
    handleNodeMessage 2 (node_info "node_B" db) 2000
      (handleNodeMessage 1 (node_info "node_A" da) 1000 initial_server) in
  "node_A"%string ≠ "node_B"%string
  ∧ neighbors da = Val ["node_B"%string]
  ∧ neighbors db = Val ["node_A"%string]
  ∧ edges (topology (networkMonitor sv)) = [new_edge "node_B" "node_A"]
  ∧ totalNodes (statistics (networkMonitor sv)) = 2.
Proof.
  split; [discriminate |]. split; [reflexivity |]. split; [reflexivity |].
  apply (two_reports_one_edge "node_A" "node_B" 1 2 1000 2000);
    [discriminate | reflexivity | reflexivity].
Defined.

(** C4 as stated fails: after the two reports there is no edge from
    node_A to node_B. *)
Lemma no_edge_towards_later_node :
  let sv :=
    handleNodeMessage 2 (node_info "node_B" (set_neighbors ["node_A"%string] sample_node)) 2000
      (handleNodeMessage 1 (node_info "node_A" (set_neighbors ["node_B"%string] sample_node)) 1000
         initial_server) in
  (new_edge "node_A" "node_B" ∉ edges (topology (networkMonitor sv)))
  ∧ length (edges (topology (networkMonitor sv))) = 1%nat.
Proof.
  vm_compute. split; [| reflexivity].
  intros H. apply list_elem_of_In in H. simpl in H.
  destruct H as [H | []]. discriminate H.
Qed.

(** ** Merging of [node_info] reports (C8) *)

Lemma over_assoc {A} (a b c : field A) : over a (over b c) = over (over a b) c.
Proof. by destruct a. Qed.

Lemma over_Absent_r {A} (a : field A) : over a Absent = a.
Proof. by destruct a. Qed.

Lemma last_supplied_snoc {A} (proj : NodeRec → field A) rs r :
  last_supplied proj (rs ++ [r]) = over (proj r.2) (last_supplied proj rs).
Proof. unfold last_supplied. by rewrite foldl_snoc. Qed.

(** [last_supplied] is the property of the last report that has it. *)
Lemma last_supplied_present {A} (proj : NodeRec → field A) rs r :
  proj r.2 ≠ Absent → last_supplied proj (rs ++ [r]) = proj r.2.
Proof. intros H. rewrite last_supplied_snoc. by destruct (proj r.2). Qed.

Lemma last_supplied_missing {A} (proj : NodeRec → field A) rs r :
  proj r.2 = Absent →
  last_supplied proj (rs ++ [r]) = last_supplied proj rs.
Proof. intros H. rewrite last_supplied_snoc. by rewrite H. Qed.

Lemma apply_node_infos_snoc sock nodeId rs now d sv :
  apply_node_infos sock nodeId (rs ++ [(now, d)]) sv
  = handleNodeInfo sock nodeId d now (apply_node_infos sock nodeId rs sv).
Proof. unfold apply_node_infos. by rewrite foldl_snoc. Qed.

Lemma handleNodeInfo_node sock nodeId d now sv :
  nodes (networkMonitor (handleNodeInfo sock nodeId d now sv)) !! nodeId
  = Some (set_lastUpdated now
            (spread_node
               (from_option (λ n, n) empty_node
                  (nodes (networkMonitor sv) !! nodeId))
               (stamp_nodeInfo sock now d))).
Proof.
  unfold handleNodeInfo, broadcastToClients. cbn [networkMonitor].
  rewrite updateNode_nodes. apply lookup_insert_eq.
Qed.

(** The properties a report may carry, after any number of reports. *)
Lemma apply_node_infos_fields sock nodeId rs sv :
  let old :=
    from_option (λ n, n) empty_node (nodes (networkMonitor sv) !! nodeId) in
  let cur :=
    from_option (λ n, n) empty_node
      (nodes (networkMonitor (apply_node_infos sock nodeId rs sv)) !! nodeId) in
  ip cur = over (last_supplied ip rs) (ip old)
  ∧ port cur = over (last_supplied port rs) (port old)
  ∧ neighbors cur = over (last_supplied neighbors rs) (neighbors old)
  ∧ version cur = over (last_supplied version rs) (version old)
  ∧ bytesSent cur = over (last_supplied bytesSent rs) (bytesSent old)
  ∧ bytesReceived cur
    = over (last_supplied bytesReceived rs) (bytesReceived old)
  ∧ messagesRelayed cur
    = over (last_supplied messagesRelayed rs) (messagesRelayed old)
  ∧ tokenHolds cur = over (last_supplied tokenHolds rs) (tokenHolds old)
  ∧ lastTokenHold cur
    = over (last_supplied lastTokenHold rs) (lastTokenHold old).
Proof.
  cbv zeta.
  induction rs as [| [now d] rs IH] using rev_ind; [by simpl |].
  rewrite apply_node_infos_snoc, handleNodeInfo_node.
  rewrite !last_supplied_snoc, <- !over_assoc.
  simpl in *.
  destruct IH as (-> & -> & -> & -> & -> & -> & -> & -> & ->). auto 10.
Qed.

(** C8, as amended: after a sequence of [node_info] reports for one
    [nodeId], each property a report may carry ([ip], [port],
    [neighbors], [version] and the counters) is, in the node, the one of
    the last report that has the property, [null] included (only a report
    without the property leaves the earlier value); [status] is
    ['active'] whatever was reported; and [lastSeen] is the timestamp of
    the most recent report. *)
Theorem node_info_merge (sock : nat) (nodeId : string)
    (rs : list (Z * NodeRec)) (now : Z) (d : NodeRec) (sv : Server) :
  let old :=
    from_option (λ n, n) empty_node (nodes (networkMonitor sv) !! nodeId) in
  let all := rs ++ [(now, d)] in
  ∃ n,
    nodes (networkMonitor (apply_node_infos sock nodeId all sv)) !! nodeId
    = Some n
    ∧ ip n = over (last_supplied ip all) (ip old)
    ∧ port n = over (last_supplied port all) (port old)
    ∧ neighbors n = over (last_supplied neighbors all) (neighbors old)
    ∧ version n = over (last_supplied version all) (version old)
    ∧ bytesSent n = over (last_supplied bytesSent all) (bytesSent old)
    ∧ bytesReceived n
      = over (last_supplied bytesReceived all) (bytesReceived old)
    ∧ messagesRelayed n
      = over (last_supplied messagesRelayed all) (messagesRelayed old)
    ∧ tokenHolds n = over (last_supplied tokenHolds all) (tokenHolds old)
    ∧ lastTokenHold n
      = over (last_supplied lastTokenHold all) (lastTokenHold old)
    ∧ status n = Val "active"%string
    ∧ lastSeen n = Val now.
Proof.
  intros old all.
  pose proof (apply_node_infos_fields sock nodeId all sv) as Hf.
  cbv zeta in Hf. subst all old.
  rewrite apply_node_infos_snoc in *.
  rewrite handleNodeInfo_node in *.
  eexists. split; [reflexivity |].
  simpl in Hf.
  destruct Hf as (H1 & H2 & H3 & H4 & H5 & H6 & H7 & H8 & H9).
  repeat split; assumption || reflexivity.
Qed.

(** C8 as stated fails: a report that carries [null] for [ip] overwrites
    the address reported before, and a reported status ['inactive'] is
    stored as ['active']. *)
Lemma null_overwrites_reported_value :
  let r1 := mkNode (Val "10.0.0.1"%string) (Val 8001) (Val [])
                   (Val "inactive"%string) Absent Absent Absent Absent
                   Absent Absent Absent Absent Absent Absent Absent Absent in
  let r2 := mkNode Null Absent Absent Absent Absent Absent Absent Absent
                   Absent Absent Absent Absent Absent Absent Absent Absent in
  let rs := [(1000, r1); (2000, r2)] in
  let sv := apply_node_infos 1 "node_A" rs initial_server in
  last_non_null ip rs = Val "10.0.0.1"%string
  ∧ last_non_null status rs = Val "inactive"%string
  ∧ ip <$> nodes (networkMonitor sv) !! "node_A"%string = Some Null
  ∧ port <$> nodes (networkMonitor sv) !! "node_A"%string = Some (Val 8001)
  ∧ status <$> nodes (networkMonitor sv) !! "node_A"%string
    = Some (Val "active"%string).
Proof. vm_compute. auto 10. Qed.

(** ** Reset (C10) *)

(** C10: [reset] empties [nodes], [dfsState], [performanceMetrics],
    [tokenHistory] and the topology and restores the initial
    [tokenStatus]; the recomputed statistics are zero except
    [tokenCirculations] and [averageTokenHoldTime], which keep the values
    they had before the reset. *)
Theorem reset_keeps_circulations (now : Z) (s : NetworkMonitor) :
  let s' := reset now s in
  nodes s' = ∅
  ∧ dfsState s' = ∅
  ∧ performanceMetrics s' = ∅
  ∧ tokenHistory s' = []
  ∧ topology s' = mkTopology [] []
  ∧ tokenStatus s' = initial_tokenStatus
  ∧ currentHolder (tokenStatus s') = None
  ∧ sequence (tokenStatus s') = Some 0
  ∧ phase (tokenStatus s') = Some "FORWARD"%string
  ∧ traversalDepth (tokenStatus s') = Some 0
  ∧ visitedCount (tokenStatus s') = Some 0
  ∧ tokenCirculations (statistics s') = tokenCirculations (statistics s)
  ∧ averageTokenHoldTime (statistics s')
    = averageTokenHoldTime (statistics s)
  ∧ totalNodes (statistics s') = 0
  ∧ activeNodes (statistics s') = 0
  ∧ totalBandwidth (statistics s') = 0
  ∧ stat_messagesRelayed (statistics s') = 0
  ∧ number_eq (networkEfficiency (statistics s')) (Finite 0)
  ∧ dfsCompletionRate (statistics s') = Finite 0.
Proof.
  unfold reset, calculateGlobalStatistics. simpl.
  unfold values. rewrite map_to_list_empty. simpl.
  repeat split; try reflexivity.
  rewrite Z.add_0_r.
  destruct (decide (0 < tokenCirculations (statistics s))) as [Hpos |];
    [| reflexivity].
  unfold percentage, js_div.
  destruct (decide (tokenCirculations (statistics s) = 0)); [lia |].
  cbn [times_100 number_eq]. unfold Qdiv. change (inject_Z 0) with 0%Q.
  rewrite !Qmult_0_l. reflexivity.
Qed.

(** The counter is not zero after a reset that follows a movement. *)
Lemma circulations_survive_reset :
  let holder h := mkTokenData (Val h) Absent Absent Absent Absent in
  let s :=
    run [OpUpdateTokenStatus 1000 (holder "node_A"%string);
         OpUpdateTokenStatus 2000 (holder "node_B"%string);
         OpReset 3000] fresh in
  tokenCirculations (statistics s) = 1
  ∧ tokenHistory s = []
  ∧ currentHolder (tokenStatus s) = None.
Proof. vm_compute. auto. Qed.

(** ** Network efficiency (C6) *)

Lemma percentage_finite (r t : Z) :
  t ≠ 0 → percentage r t = Finite (inject_Z r / inject_Z t * 100)%Q.
Proof.
  intros Ht. unfold percentage, js_div.
  destruct (decide (t = 0)); [contradiction | reflexivity].
Qed.

Lemma percentage_range (r t : Z) :
  0 ≤ r ≤ t → 0 < t → between 0 100 (percentage r t).
Proof.
  intros [Hr Hrt] Ht. rewrite percentage_finite by lia. cbn [between].
  destruct t as [| p | p]; try lia.
  unfold Qle, Qdiv, Qmult, Qinv, inject_Z. simpl. nia.
Qed.

Lemma percentage_zero (t : Z) :
  t ≠ 0 → number_eq (percentage 0 t) (Finite 0).
Proof.
  intros Ht. rewrite percentage_finite by exact Ht. cbn [number_eq].
  unfold Qdiv. change (inject_Z 0) with 0%Q.
  rewrite !Qmult_0_l. reflexivity.
Qed.

(** The guard of the code matters: without activity the ratio itself is
    [0 / 0]. *)
Lemma percentage_without_activity : percentage 0 0 = NaN.
Proof. reflexivity. Qed.

Lemma relayed_nonneg (ns : list NodeRec) : ∀ acc,
  0 ≤ acc → Forall nonneg_node ns →
  0 ≤ foldl (λ sum n, sum + or0 (messagesRelayed n)) acc ns.
Proof.
  induction ns as [| n ns IH]; intros acc Hacc Hall; simpl; [exact Hacc |].
  inversion Hall as [| ? ? Hn Hns]; subst. unfold nonneg_node in Hn.
  apply IH; [lia | exact Hns].
Qed.

Lemma values_nonneg s : nodes_nonneg s → Forall nonneg_node (values (nodes s)).
Proof.
  intros Hs. apply Forall_forall. intros n Hn. unfold values in Hn.
  apply list_elem_of_fmap in Hn as ([k n'] & -> & Hkn).
  apply elem_of_map_to_list in Hkn. by apply (Hs k).
Qed.

Lemma calculateGlobalStatistics_efficiency now s :
  (networkEfficiency (statistics (calculateGlobalStatistics now s))
   = let st := statistics (calculateGlobalStatistics now s) in
     if decide (0 < tokenCirculations st + stat_messagesRelayed st)
     then percentage (stat_messagesRelayed st)
                     (tokenCirculations st + stat_messagesRelayed st)
     else Finite 0).
Proof. reflexivity. Qed.

Lemma calculateGlobalStatistics_ok now s :
  nodes_nonneg s → 0 ≤ tokenCirculations (statistics s) →
  efficiency_ok (statistics (calculateGlobalStatistics now s)).
Proof.
  intros Hs Hc.
  pose proof (relayed_nonneg (values (nodes s)) 0 (Z.le_refl 0)
                (values_nonneg s Hs)) as Hrel.
  unfold efficiency_ok.
  rewrite calculateGlobalStatistics_efficiency. cbv zeta.
  change (tokenCirculations (statistics (calculateGlobalStatistics now s)))
    with (tokenCirculations (statistics s)).
  set (rel := stat_messagesRelayed (statistics (calculateGlobalStatistics now s))).
  change (0 ≤ rel) in Hrel.
  split; [exact Hc |]. split; [exact Hrel |].
  destruct (decide (0 < tokenCirculations (statistics s) + rel)) as [Hpos | Hz].
  - split; [apply percentage_range; lia |].
    intros Hz. rewrite Hz in *. apply percentage_zero. lia.
  - split; [split; discriminate | reflexivity].
Qed.

Lemma nonneg_over (new old : field Z) :
  0 ≤ or0 new → 0 ≤ or0 old → 0 ≤ or0 (over new old).
Proof. by destruct new. Qed.

Lemma nodes_nonneg_insert k n s m' :
  nodes m' = <[k := n]> (nodes s) → nonneg_node n →
  nodes_nonneg s → nodes_nonneg m'.
Proof.
  intros Hm Hn Hs j x. rewrite Hm.
  destruct (decide (k = j)) as [-> | Hne].
  - rewrite lookup_insert_eq. by intros [= <-].
  - rewrite lookup_insert_ne by exact Hne. apply Hs.
Qed.

Lemma nodes_nonneg_old s k :
  nodes_nonneg s →
  nonneg_node (from_option (λ n, n) empty_node (nodes s !! k)).
Proof.
  intros Hs. destruct (nodes s !! k) as [n |] eqn:Hk; simpl.
  - by apply (Hs k).
  - unfold nonneg_node. simpl. lia.
Qed.

Lemma efficiency_step s o :
  nonneg_op o →
  nodes_nonneg s ∧ efficiency_ok (statistics s) →
  nodes_nonneg (apply_op s o) ∧ efficiency_ok (statistics (apply_op s o)).
Proof.
  intros Ho [Hs Hst].
  assert (Hc : 0 ≤ tokenCirculations (statistics s)) by apply Hst.
  destruct o as [now k n | d | now d | now d | now d | now k | now];
    cbn [apply_op nonneg_op] in *.
  - (* updateNode *)
    unfold updateNode, updateStatistics.
    match goal with
    | |- nodes_nonneg (calculateGlobalStatistics _ ?x) ∧ _ =>
        assert (nodes_nonneg x) as Hx
    end.
    { eapply nodes_nonneg_insert; [reflexivity | | exact Hs].
      pose proof (nodes_nonneg_old s k Hs) as H1.
      unfold nonneg_node in *. simpl. by apply nonneg_over. }
    split; [exact Hx |]. apply calculateGlobalStatistics_ok; [exact Hx | exact Hc].
  - (* updateTopology *)
    unfold updateTopology.
    destruct (truthy_str _); [| by split].
    destruct (nodes s !! _) as [node |] eqn:Hk; [| by split].
    split; [| exact Hst].
    eapply nodes_nonneg_insert; [reflexivity | | exact Hs].
    apply (Hs _ _ Hk).
  - (* updateTokenStatus *)
    unfold updateTokenStatus.
    match goal with
    | |- nodes_nonneg (if _ then match nodes ?x !! _ with _ => _ end else _) ∧ _ =>
        assert (nodes_nonneg x ∧ efficiency_ok (statistics x)) as [Hx Hxs]
    end.
    { destruct (movement_recorded _ _); [| by split].
      split; [exact Hs |].
      destruct Hst as (H1 & H2 & H3 & H4).
      repeat split; simpl; try apply H3; try assumption; lia. }
    destruct (truthy_str _); [| by split].
    destruct (nodes _ !! _) as [node |] eqn:Hk; [| by split].
    split; [| exact Hxs].
    eapply nodes_nonneg_insert; [reflexivity | | exact Hx].
    apply (Hx _ _ Hk).
  - (* updateStatistics *)
    unfold updateStatistics.
    match goal with
    | |- nodes_nonneg (calculateGlobalStatistics _ ?x) ∧ _ =>
        assert (nodes_nonneg x ∧ 0 ≤ tokenCirculations (statistics x))
          as [Hx Hxc]
    end.
    { destruct d as [d |]; [| by split].
      destruct (truthy_str _); [| by split].
      destruct (nodes s !! _) as [node |] eqn:Hk; [| by split].
      split; [| exact Hc].
      eapply nodes_nonneg_insert; [reflexivity | | exact Hs].
      exact Ho. }
    split; [exact Hx |]. apply calculateGlobalStatistics_ok; [exact Hx | exact Hxc].
  - (* updateDfsState *)
    unfold updateDfsState. destruct (truthy_str _); by split.
  - (* removeNode *)
    unfold removeNode, updateStatistics.
    match goal with
    | |- nodes_nonneg (calculateGlobalStatistics _ ?x) ∧ _ =>
        assert (nodes_nonneg x) as Hx
    end.
    { intros j x. simpl. intros Hj.
      apply lookup_delete_Some in Hj as [_ Hj]. by apply (Hs j). }
    split; [exact Hx |]. apply calculateGlobalStatistics_ok; [exact Hx | exact Hc].
  - (* reset *)
    unfold reset.
    match goal with
    | |- nodes_nonneg (calculateGlobalStatistics _ ?x) ∧ _ =>
        assert (nodes_nonneg x) as Hx
    end.
    { intros j x. simpl. by rewrite lookup_empty. }
    split; [exact Hx |]. apply calculateGlobalStatistics_ok; [exact Hx | exact Hc].
Qed.

Lemma efficiency_reachable ops :
  Forall nonneg_op ops →
  nodes_nonneg (run ops fresh) ∧ efficiency_ok (statistics (run ops fresh)).
Proof.
  induction ops as [| o ops IH] using rev_ind; intros Hall.
  - split.
    + intros j x. simpl. by rewrite lookup_empty.
    + repeat split; simpl; try discriminate; lia.
  - apply Forall_app in Hall as [Hops Ho].
    inversion Ho; subst. rewrite run_snoc.
    apply efficiency_step; auto.
Qed.

(** C6, as amended: in every state reached from a fresh monitor by
    operations that report no negative [messagesRelayed], and in which
    [messagesRelayed + tokenCirculations] is at most [2 ^ 53] (so that the
    doubles of the code hold the counters and their sum exactly and none
    is an infinity), [networkEfficiency] is a finite number in [[0, 100]]
    and is 0 when [messagesRelayed + tokenCirculations = 0]; and every
    recomputation sets it to
    [messagesRelayed / (messagesRelayed + tokenCirculations) * 100], or to
    0 when the denominator is 0, where the division alone gives [NaN]
    ([percentage_without_activity]).  The finite ratio is the exact one;
    the double of the code is its rounding, which stays in [[0, 100]]. *)
Theorem networkEfficiency_bounds (ops : list Op) :
  Forall nonneg_op ops →
  let s := run ops fresh in
  counts_exactly (statistics s) →
  between 0 100 (networkEfficiency (statistics s))
  ∧ (stat_messagesRelayed (statistics s) + tokenCirculations (statistics s) = 0
     → number_eq (networkEfficiency (statistics s)) (Finite 0))
  ∧ ∀ now,
      let st := statistics (calculateGlobalStatistics now s) in
      networkEfficiency st
      = efficiency_formula (stat_messagesRelayed st) (tokenCirculations st).
Proof.
  intros Hall s _.
  destruct (efficiency_reachable ops Hall) as [Hs (Hc & Hr & Hrange & Hzero)].
  fold s in Hs, Hc, Hr, Hrange, Hzero.
  split; [exact Hrange |]. split.
  - intros Hsum. apply Hzero. lia.
  - intros now st.
    destruct (calculateGlobalStatistics_ok now s Hs Hc) as (Hc' & Hr' & _ & _).
    fold st in Hc', Hr'. subst st.
    rewrite calculateGlobalStatistics_efficiency. cbv zeta.
    unfold efficiency_formula.
    set (st := statistics (calculateGlobalStatistics now s)) in *.
    rewrite (Z.add_comm (tokenCirculations st)).
    destruct (decide (0 < stat_messagesRelayed st + tokenCirculations st));
      destruct (decide (stat_messagesRelayed st + tokenCirculations st = 0));
      try reflexivity; lia.
Qed.

Lemma networkEfficiency_bounds_witness :
  let ops :=
    [OpUpdateNode 1000 "node_A" sample_node;
     OpUpdateStatistics 2000
       (Some (mkStatsData (Val "node_A"%string) (Val 10) (Val 20) (Val 3)));
     OpUpdateTokenStatus 3000
       (mkTokenData (Val "node_A"%string) Absent Absent Absent Absent);
     OpUpdateTokenStatus 4000
       (mkTokenData (Val "node_B"%string) Absent Absent Absent Absent);
     OpUpdateStatistics 5000 None] in
  Forall nonneg_op ops
  ∧ counts_exactly (statistics (run ops fresh))
  ∧ between 0 100 (networkEfficiency (statistics (run ops fresh)))
  ∧ number_eq (networkEfficiency (statistics (run ops fresh))) (Finite 75).
Proof.
  intros ops.
  assert (Hops : Forall nonneg_op ops).
  { unfold ops.
    repeat (apply List.Forall_cons;
              [unfold nonneg_op, nonneg_node; simpl; try lia; exact I |]).
    apply List.Forall_nil. }
  assert (Hexact : counts_exactly (statistics (run ops fresh))).
  { unfold counts_exactly. vm_compute. intros H. discriminate H. }
  split; [exact Hops |]. split; [exact Hexact |]. split.
  - pose proof (networkEfficiency_bounds ops Hops Hexact) as [Hrange _].
    exact Hrange.
  - vm_compute. reflexivity.
Defined.

(** C6 as stated fails: the reports are not validated, and after a
    [statistics_update] with a negative [messagesRelayed] the efficiency
    is -100. *)
Lemma negative_counter_breaks_bound :
  let ops :=
    [OpUpdateNode 1000 "node_A" sample_node;
     OpUpdateTokenStatus 2000
       (mkTokenData (Val "node_A"%string) Absent Absent Absent Absent);
     OpUpdateTokenStatus 3000
       (mkTokenData (Val "node_B"%string) Absent Absent Absent Absent);
     OpUpdateTokenStatus 4000
       (mkTokenData (Val "node_A"%string) Absent Absent Absent Absent);
     OpUpdateStatistics 5000
       (Some (mkStatsData (Val "node_A"%string) (Val 0) (Val 0) (Val (-1))))] in
  number_eq (networkEfficiency (statistics (run ops fresh))) (Finite (-100))
  ∧ ¬ between 0 100 (networkEfficiency (statistics (run ops fresh))).
Proof. vm_compute. split; [reflexivity | intros [H _]; auto]. Qed.

(** ** Recomputation of the statistics (C2) *)

(** A recomputation is stable: recomputing again at the same time gives
    the same statistics. *)
Lemma calculateGlobalStatistics_current now s :
  statistics_current now (calculateGlobalStatistics now s).
Proof.
  unfold statistics_current, calculateGlobalStatistics. simpl.
  destruct (decide (1 < length (tokenHoldTimes now (tokenHistory s)))%nat);
    reflexivity.
Qed.

(** The operations that end with a recomputation leave current
    statistics. *)
Lemma recomputing_operations_current now s :
  (∀ nodeId nodeInfo, statistics_current now (updateNode now nodeId nodeInfo s))
  ∧ (∀ d, statistics_current now (updateStatistics now d s))
  ∧ (∀ nodeId, statistics_current now (removeNode now nodeId s))
  ∧ statistics_current now (reset now s).
Proof.
  repeat split; intros; apply calculateGlobalStatistics_current.
Qed.

(** [updateTokenStatus] and [updateDfsState] never recompute: apart from
    the increment of [tokenCirculations], the statistics are those of the
    state before. *)
Lemma updateDfsState_statistics now d s :
  statistics (updateDfsState now d s) = statistics s.
Proof. unfold updateDfsState. by destruct (truthy_str _). Qed.

Lemma updateTokenStatus_statistics now d s :
  statistics (updateTokenStatus now d s)
  = if movement_recorded (currentHolder (tokenStatus s)) (td_currentHolder d)
    then bump_circulations (statistics s) else statistics s.
Proof.
  unfold updateTokenStatus.
  destruct (movement_recorded _ _); simpl;
    destruct (truthy_str _); simpl; try reflexivity;
    destruct (_ !! _); reflexivity.
Qed.

Lemma updateTopology_statistics d s :
  statistics (updateTopology d s) = statistics s.
Proof.
  unfold updateTopology. destruct (truthy_str _); [| reflexivity].
  by destruct (nodes s !! _).
Qed.

(** C2, at the failing input: node_A registers and reports 5 relayed
    messages, then the token goes to node_A and on to node_B.  The
    movement is counted, but [networkEfficiency] is still the 100 of the
    last recomputation, where a recomputation gives 250/3.  A [dfs_state]
    report of node_A then sets [visitedCount] to 1 with one active node,
    and [dfsCompletionRate] stays 0, where a recomputation gives 100. *)
Theorem statistics_stale_after_token_and_dfs :
  let holder h := mkTokenData (Val h) Absent Absent Absent Absent in
  let sv1 := handleNodeMessage 1 (node_info "node_A" sample_node) 1000
               initial_server in
  let sv2 :=
    handleNodeMessage 1
      (statistics_update
         (mkStatsData (Val "node_A"%string) (Val 0) (Val 0) (Val 5)))
      2000 sv1 in
  let sv3 := handleNodeMessage 1 (token_status (holder "node_A"%string)) 3000 sv2 in
  let sv4 := handleNodeMessage 1 (token_status (holder "node_B"%string)) 4000 sv3 in
  let sv5 :=
    handleNodeMessage 1
      (dfs_state (mkDfsData (Val "node_A"%string) (Val "FORWARD"%string)
                            (Val 1) (Val true) Null (Val [])))
      5000 sv4 in
  let m4 := networkMonitor sv4 in
  let m5 := networkMonitor sv5 in
  tokenCirculations (statistics m4) = 1
  ∧ stat_messagesRelayed (statistics m4) = 5
  ∧ number_eq (networkEfficiency (statistics m4)) (Finite 100)
  ∧ number_eq (networkEfficiency (statistics (calculateGlobalStatistics 4000 m4)))
              (Finite (250 # 3))
  ∧ ¬ statistics_current 4000 m4
  ∧ visitedCount (tokenStatus m5) = Some 1
  ∧ activeNodes (statistics m5) = 1
  ∧ number_eq (dfsCompletionRate (statistics m5)) (Finite 0)
  ∧ number_eq (dfsCompletionRate (statistics (calculateGlobalStatistics 5000 m5)))
              (Finite 100)
  ∧ ¬ statistics_current 5000 m5.
Proof.
  cbv zeta. unfold statistics_current.
  do 4 (split; [vm_compute; reflexivity |]).
  split.
  { intros H. apply (f_equal networkEfficiency) in H. vm_compute in H.
    discriminate H. }
  do 4 (split; [vm_compute; reflexivity |]).
  intros H. apply (f_equal dfsCompletionRate) in H. vm_compute in H.
  discriminate H.
Qed.

(** ** Disconnection (C3) *)

Lemma length_filter_Permutation {A} (p : A → bool) (l l' : list A) :
  l ≡ₚ l' → length (List.filter p l) = length (List.filter p l').
Proof.
  induction 1 as [| x l l' _ IH | x y l | l l' l'' _ IH1 _ IH2]; simpl.
  - reflexivity.
  - destruct (p x); simpl; congruence.
  - destruct (p x), (p y); reflexivity.
  - congruence.
Qed.

(** What [removeNode] does: the node leaves [nodes] and the topology, and
    an active node is no longer counted. *)
Lemma removeNode_evicts now nodeId n s :
  nodes s !! nodeId = Some n →
  let s' := removeNode now nodeId s in
  nodes s' !! nodeId = None
  ∧ (Val nodeId ∉ map node_id (topo_nodes (topology s')))
  ∧ Forall (λ e, from e ≠ nodeId ∧ to e ≠ nodeId) (edges (topology s'))
  ∧ totalNodes (statistics s') = Z.of_nat (size (nodes s)) - 1
  ∧ activeNodes (statistics s')
    = Z.of_nat (length (List.filter is_active (values (nodes s))))
      - (if is_active n then 1 else 0).
Proof.
  intros Hn s'. subst s'. split; [| split; [| split; [| split]]].
  - unfold removeNode, updateStatistics. simpl. apply lookup_delete_eq.
  - unfold removeNode, updateStatistics. simpl.
    change (map node_id) with (fmap (M:=list) node_id).
    intros H. apply list_elem_of_fmap in H as (x & Hx & Hin).
    apply elem_of_List_filter in Hin as [_ Hin].
    apply negb_true_iff in Hin. symmetry in Hx.
    apply field_eqb_Val in Hx. congruence.
  - apply Forall_forall. intros e He. by apply removeNode_no_edge in He.
  - unfold removeNode, updateStatistics. rewrite totalNodes_size. simpl.
    rewrite map_size_delete_Some by eauto.
    assert (size (nodes s) ≠ 0%nat).
    { intros H0. apply map_size_empty_inv in H0. rewrite H0 in Hn.
      by rewrite lookup_empty in Hn. }
    lia.
  - unfold removeNode, updateStatistics. simpl.
    assert (Hperm : values (nodes s) ≡ₚ n :: values (delete nodeId (nodes s))).
    { unfold values. rewrite <- (map_to_list_delete (nodes s) nodeId n Hn).
      reflexivity. }
    rewrite (length_filter_Permutation _ _ _ Hperm). simpl.
    destruct (is_active n); simpl; lia.
Qed.

(** The [close] handler does not touch the monitor. *)
Lemma on_close_keeps_monitor c sv :
  networkMonitor (on_close c sv).2 = networkMonitor sv.
Proof.
  unfold on_close. destruct (conn_nodeId c) as [k |]; [| reflexivity].
  destruct (_ && _); reflexivity.
Qed.

(** C3, at the failing input: node_A registers on a connection and the
    connection closes.  node_A leaves [connectedNodes] and one
    [node_disconnected] is broadcast, but [removeNode] is not called:
    node_A is still in [nodes] and in the topology, and [activeNodes] is
    still 1. *)
Theorem close_leaves_node_in_monitor :
  let st1 := deliver 1000 (node_info "node_A" sample_node)
               (new_conn 1, initial_server) in
  let st2 := on_close st1.1 st1.2 in
  let m := networkMonitor st2.2 in
  activeNodes (statistics (networkMonitor st1.2)) = 1
  ∧ connectedNodes st2.2 !! "node_A"%string = None
  ∧ List.filter (λ ev, String.eqb ev.1 "node_disconnected") (emitted st2.2)
    = [("node_disconnected"%string, p_disconnected "node_A")]
  ∧ is_Some (nodes m !! "node_A"%string)
  ∧ map node_id (topo_nodes (topology m)) = [Val "node_A"%string]
  ∧ activeNodes (statistics m) = 1
  ∧ totalNodes (statistics m) = 1.
Proof.
  cbv zeta. repeat split; try (vm_compute; reflexivity).
  vm_compute. eauto.
Qed.

(** ** Playback (C5) *)

Lemma insert_by_timestamp_perm r l : insert_by_timestamp r l ≡ₚ r :: l.
Proof.
  induction l as [| x l IH]; simpl; [reflexivity |].
  destruct (decide (row_timestamp r < row_timestamp x)); [reflexivity |].
  rewrite IH. apply Permutation_swap.
Qed.

Lemma order_by_timestamp_acc l : ∀ acc,
  foldl (λ acc r, insert_by_timestamp r acc) acc l ≡ₚ acc ++ l.
Proof.
  induction l as [| r l IH]; intros acc; simpl.
  - by rewrite app_nil_r.
  - rewrite IH, insert_by_timestamp_perm.
    by rewrite <- Permutation_middle.
Qed.

Lemma order_by_timestamp_perm l : order_by_timestamp l ≡ₚ l.
Proof. apply (order_by_timestamp_acc l []). Qed.

Lemma insert_by_timestamp_sorted r l :
  Sorted by_timestamp l → Sorted by_timestamp (insert_by_timestamp r l).
Proof.
  induction l as [| x l IH]; intros Hl; simpl.
  - repeat constructor.
  - inversion Hl as [| ? ? Hs Hhd]; subst.
    destruct (decide (row_timestamp r < row_timestamp x)) as [Hlt | Hge].
    + constructor; [exact Hl |]. constructor. unfold by_timestamp. lia.
    + constructor; [by apply IH |].
      destruct l as [| y l]; simpl.
      * constructor. unfold by_timestamp. lia.
      * destruct (decide (row_timestamp r < row_timestamp y)).
        -- constructor. unfold by_timestamp. lia.
        -- inversion Hhd; subst. by constructor.
Qed.

Lemma order_by_timestamp_sorted l : Sorted by_timestamp (order_by_timestamp l).
Proof.
  unfold order_by_timestamp.
  assert (H : ∀ acc, Sorted by_timestamp acc →
            Sorted by_timestamp
              (foldl (λ acc r, insert_by_timestamp r acc) acc l)).
  { induction l as [| r l IH]; intros acc Hacc; simpl; [exact Hacc |].
    apply IH. by apply insert_by_timestamp_sorted. }
  apply H. constructor.
Qed.

(** A row that is not earlier than any row of the list goes last. *)
Lemma insert_by_timestamp_last r l :
  Forall (λ x, row_timestamp x ≤ row_timestamp r) l →
  insert_by_timestamp r l = l ++ [r].
Proof.
  induction 1 as [| x l Hx _ IH]; simpl; [reflexivity |].
  destruct (decide (row_timestamp r < row_timestamp x)); [lia |].
  by rewrite IH.
Qed.

(** When the timestamps increase along the rows, the order is kept. *)
Lemma order_by_timestamp_increasing l :
  StronglySorted (λ x y, row_timestamp x < row_timestamp y) l →
  order_by_timestamp l = l.
Proof.
  unfold order_by_timestamp.
  assert (H : ∀ acc,
            StronglySorted (λ x y, row_timestamp x < row_timestamp y)
                           (acc ++ l) →
            foldl (λ acc r, insert_by_timestamp r acc) acc l = acc ++ l).
  { induction l as [| r l IH]; intros acc Hs; simpl.
    - by rewrite app_nil_r.
    - rewrite insert_by_timestamp_last.
      + rewrite IH; rewrite <- app_assoc; [reflexivity | exact Hs].
      + apply Forall_forall. intros x Hx.
        clear IH. induction acc as [| a acc IHacc].
        * by apply not_elem_of_nil in Hx.
        * simpl in Hs. apply StronglySorted_inv in Hs as [Hs Ha].
          apply elem_of_cons in Hx as [-> | Hx].
          -- rewrite Forall_forall in Ha.
             assert (row_timestamp a < row_timestamp r); [| lia].
             apply Ha. apply elem_of_app. right. apply elem_of_cons. by left.
          -- by apply IHacc. }
  intros Hl. apply (H [] Hl).
Qed.

(** The interval callback, tick by tick. *)
Lemma ticks_S k p : ticks (S k) p = tick (ticks k p).
Proof. reflexivity. Qed.

Lemma ticks_playing es k :
  (k ≤ length es)%nat →
  ticks k (mkPlayback es 0 true [])
  = mkPlayback es k true (map playback_event (take k es)).
Proof.
  induction k as [| k IH]; intros Hk; [reflexivity |].
  rewrite ticks_S, IH by lia. unfold tick. simpl.
  destruct (es !! k) as [e |] eqn:He.
  - by rewrite (take_S_r es k e He), map_app.
  - apply lookup_ge_None in He. lia.
Qed.

Lemma ticks_complete es k :
  (length es < k)%nat →
  ticks k (mkPlayback es 0 true [])
  = mkPlayback es (length es) false
               (map playback_event es ++ [playback_complete]).
Proof.
  induction k as [| k IH]; intros Hk; [lia |].
  rewrite ticks_S.
  destruct (decide (length es < k)%nat) as [Hlt | Hge].
  - rewrite IH by exact Hlt. reflexivity.
  - assert (k = length es) as -> by lia.
    rewrite ticks_playing by lia. unfold tick. simpl.
    rewrite lookup_ge_None_2 by lia.
    by rewrite firstn_all.
Qed.

Lemma recordEvent_session_rows sid m now db :
  currentSessionId db = Some sid →
  session_rows sid (recordEvent m now db)
  = session_rows sid db ++ [mkRow (next_id (network_events db)) sid now m].
Proof.
  intros Hsid. unfold recordEvent, session_rows. rewrite Hsid. simpl.
  rewrite List.filter_app. simpl. by rewrite String.eqb_refl.
Qed.

(** C5, as amended: [startPlayback] loads the events of the session in
    ascending order of their recorded timestamp ([ORDER BY timestamp ASC],
    not by ordinal), and the interval sends exactly these events in that
    order, one per tick, then [playback_complete] once and nothing more.
    The loaded events are the recorded ones E1..En themselves, in recording
    order, when their timestamps increase. *)
Theorem playback_in_timestamp_order (sessionId : string) (db : Database)
    (k : nat) :
  (length (session_rows sessionId db) < k)%nat →
  let loaded := getRecordingEvents sessionId db in
  let p := ticks k (startPlayback sessionId db) in
  sent p = map playback_event loaded ++ [playback_complete]
  ∧ playbackInterval p = false
  ∧ loaded ≡ₚ session_rows sessionId db
  ∧ Sorted by_timestamp loaded
  ∧ (StronglySorted (λ x y, row_timestamp x < row_timestamp y)
                    (session_rows sessionId db) →
     loaded = session_rows sessionId db).
Proof.
  intros Hk loaded p.
  assert (Hperm : loaded ≡ₚ session_rows sessionId db)
    by apply order_by_timestamp_perm.
  assert (Hlen : (length loaded < k)%nat).
  { by rewrite (Permutation_length Hperm). }
  subst p. unfold startPlayback. fold loaded.
  rewrite (ticks_complete loaded k Hlen). simpl.
  split; [reflexivity |]. split; [reflexivity |]. split; [exact Hperm |].
  split; [apply order_by_timestamp_sorted |].
  apply order_by_timestamp_increasing.
Qed.

Lemma playback_in_timestamp_order_witness :
  let db :=
    recordEvent (other "second") 2000
      (recordEvent (other "first") 1000
         (startRecordingSession "s1" empty_database)) in
  (length (session_rows "s1" db) < 5)%nat
  ∧ sent (ticks 5 (startPlayback "s1" db))
    = [playback_event (mkRow 1 "s1" 1000 (other "first"));
       playback_event (mkRow 2 "s1" 2000 (other "second"));
       playback_complete].
Proof.
  intros db. split; [vm_compute; lia |].
  assert (H : (length (session_rows "s1" db) < 5)%nat) by (vm_compute; lia).
  destruct (playback_in_timestamp_order "s1" db 5 H) as [Hsent _].
  rewrite Hsent. reflexivity.
Defined.

(** C5 as stated fails: two events recorded while the clock steps back are
    played in the order of their timestamps, the second recorded first. *)
Lemma playback_not_in_ordinal_order :
  let db :=
    recordEvent (other "second") 1000
      (recordEvent (other "first") 2000
         (startRecordingSession "s1" empty_database)) in
  map row_id (session_rows "s1" db) = [1; 2]
  ∧ map row_id (order_by_id (session_rows "s1" db)) = [1; 2]
  ∧ map row_id (getRecordingEvents "s1" db) = [2; 1]
  ∧ sent (ticks 3 (startPlayback "s1" db))
    = [playback_event (mkRow 2 "s1" 1000 (other "second"));
       playback_event (mkRow 1 "s1" 2000 (other "first"));
       playback_complete].
Proof. vm_compute. auto. Qed.

(** ** The line framer (C7) *)

Lemma split_newline_cons s : ∃ p ps, split_newline s = p :: ps.
Proof.
  induction s as [| ch s (p & ps & IH)]; simpl; [eauto |].
  rewrite IH. destruct (Ascii.eqb ch newline); eauto.
Qed.

Lemma split_newline_app s d :
  split_newline (s +:+ d)
  = removelast (split_newline s)
    ++ split_newline (List.last (split_newline s) EmptyString +:+ d).
Proof.
  induction s as [| ch s IH]; [reflexivity |].
  change (String ch s +:+ d) with (String ch (s +:+ d)).
  cbn [split_newline]. rewrite IH.
  destruct (split_newline_cons s) as (p & ps & ->).
  destruct (Ascii.eqb ch newline) eqn:Hch.
  - destruct ps as [| p2 ps].
    + cbn [removelast List.last app].
      by destruct (split_newline_cons (p +:+ d)) as (q & qs & ->).
    + reflexivity.
  - destruct ps as [| p2 ps].
    + cbn [removelast List.last app].
      change (String ch p +:+ d) with (String ch (p +:+ d)).
      cbn [split_newline].
      destruct (split_newline_cons (p +:+ d)) as (q & qs & ->).
      by rewrite Hch.
    + reflexivity.
Qed.

Lemma split_newline_plain s : has_newline s = false → split_newline s = [s].
Proof.
  induction s as [| ch s IH]; simpl; [reflexivity |].
  intros H. apply orb_false_iff in H as [Hch Hs].
  by rewrite (IH Hs), Hch.
Qed.


(** No piece has a newline, and the pieces joined by newlines are the
    string. *)
Lemma split_newline_pieces s :
  Forall (λ l, has_newline l = false) (split_newline s)
  ∧ String.concat (String newline EmptyString) (split_newline s) = s.
Proof.
  induction s as [| ch s [IH1 IH2]].
  - split; [by repeat constructor | reflexivity].
  - cbn [split_newline].
    destruct (split_newline_cons s) as (p & ps & Hs). rewrite Hs in *.
    apply Forall_cons in IH1 as [Hp Hps].
    destruct (Ascii.eqb ch newline) eqn:Hch.
    + apply Ascii.eqb_eq in Hch as ->. split.
      * by repeat constructor.
      * change (String.concat (String newline EmptyString)
                  (EmptyString :: p :: ps))
          with (String newline
                  (String.concat (String newline EmptyString) (p :: ps))).
        by rewrite IH2.
    + split.
      * constructor; [simpl; by rewrite Hch, Hp | exact Hps].
      * destruct ps as [| q ps].
        -- simpl in *. by rewrite IH2.
        -- change (String.concat (String newline EmptyString)
                     (String ch p :: q :: ps))
             with (String ch
                     (String.concat (String newline EmptyString)
                        (p :: q :: ps))).
           by rewrite IH2.
Qed.

Lemma last_elem_of {A} (l : list A) (x d : A) : List.last (x :: l) d ∈ x :: l.
Proof.
  revert x. induction l as [| y l IH]; intros x.
  - apply elem_of_cons. by left.
  - apply elem_of_cons. right. apply (IH y).
Qed.

Lemma remainder_plain s : has_newline (remainder s) = false.
Proof.
  unfold remainder. destruct (split_newline_pieces s) as [H _].
  destruct (split_newline_cons s) as (p & ps & Hs). rewrite Hs in *.
  rewrite Forall_forall in H. apply H. apply last_elem_of.
Qed.

Lemma complete_lines_app s d :
  complete_lines (s +:+ d)
  = complete_lines s ++ complete_lines (remainder s +:+ d).
Proof.
  unfold complete_lines, remainder. rewrite split_newline_app.
  destruct (split_newline_cons (List.last (split_newline s) EmptyString +:+ d))
    as (q & qs & Hq).
  rewrite Hq. apply removelast_app. discriminate.
Qed.

Lemma last_app_cons {A} (l : list A) (q : A) (qs : list A) (d : A) :
  List.last (l ++ q :: qs) d = List.last (q :: qs) d.
Proof.
  induction l as [| x l IH]; [reflexivity |].
  rewrite <- IH. simpl. by destruct (l ++ q :: qs) eqn:E; [destruct l |].
Qed.

Lemma remainder_app s d : remainder (s +:+ d) = remainder (remainder s +:+ d).
Proof.
  unfold remainder. rewrite split_newline_app.
  destruct (split_newline_cons (List.last (split_newline s) EmptyString +:+ d))
    as (q & qs & Hq).
  rewrite Hq. apply last_app_cons.
Qed.

Lemma append_assoc (a b c : string) : (a +:+ b) +:+ c = a +:+ (b +:+ c).
Proof.
  induction a as [| ch a IH]; [reflexivity |].
  change (String ch ((a +:+ b) +:+ c) = String ch (a +:+ (b +:+ c))).
  by rewrite IH.
Qed.

Lemma append_empty_r (a : string) : a +:+ EmptyString = a.
Proof.
  induction a as [| ch a IH]; [reflexivity |].
  change (String ch (a +:+ EmptyString) = String ch a). by rewrite IH.
Qed.

(** Over any sequence of reads, the lines handed on are the complete lines
    of the whole stream, and the buffer is what follows its last
    newline. *)
Lemma tagged_lines_stream chunks : ∀ buf,
  has_newline buf = false →
  map snd (tagged_lines buf chunks)
  = complete_lines (buf +:+ concat_chunks (map snd chunks))
  ∧ final_buffer buf chunks
    = remainder (buf +:+ concat_chunks (map snd chunks)).
Proof.
  induction chunks as [| [now data] chunks IH]; intros buf Hbuf.
  - cbn [tagged_lines final_buffer map concat_chunks foldr].
    rewrite append_empty_r. unfold complete_lines, remainder.
    by rewrite (split_newline_plain buf Hbuf).
  - cbn [tagged_lines final_buffer map snd concat_chunks foldr].
    destruct (IH (remainder (buf +:+ data)) (remainder_plain _)) as [IH1 IH2].
    change (foldr String.append EmptyString (map snd chunks))
      with (concat_chunks (map snd chunks)).
    rewrite <- append_assoc.
    rewrite (complete_lines_app (buf +:+ data)), (remainder_app (buf +:+ data)).
    rewrite <- IH1, <- IH2.
    split; [| reflexivity].
    rewrite map_app, map_map. simpl. by rewrite map_id.
Qed.

Lemma deliver_set_buffer b now m c sv :
  deliver now m (set_buffer b c, sv)
  = (set_buffer b (deliver now m (c, sv)).1, (deliver now m (c, sv)).2).
Proof. unfold deliver. simpl. by destruct m. Qed.

Lemma deliver_all_set_buffer b ms : ∀ c sv,
  deliver_all ms (set_buffer b c, sv)
  = (set_buffer b (deliver_all ms (c, sv)).1, (deliver_all ms (c, sv)).2).
Proof.
  unfold deliver_all.
  induction ms as [| [now m] ms IH]; intros c sv; [reflexivity |].
  cbn [foldl]. rewrite deliver_set_buffer.
  destruct (deliver now m (c, sv)) as [c1 sv1]. apply IH.
Qed.

Lemma deliver_all_app ms1 ms2 st :
  deliver_all (ms1 ++ ms2) st = deliver_all ms2 (deliver_all ms1 st).
Proof. unfold deliver_all. apply foldl_app. Qed.

Lemma set_buffer_twice a b c : set_buffer a (set_buffer b c) = set_buffer a c.
Proof. reflexivity. Qed.


Lemma set_buffer_same c : set_buffer (buffer c) c = c.
Proof. by destruct c. Qed.

Section FramerProperties.

Variable JSON_parse : string → option Message.

Lemma accepted_cons now l ls :
  accepted JSON_parse ((now, l) :: ls)
  = (if is_blank l then []
     else match JSON_parse l with
          | Some m => [(now, m)]
          | None => []
          end)
    ++ accepted JSON_parse ls.
Proof.
  unfold accepted. simpl.
  destruct (is_blank l); [reflexivity |].
  destruct (JSON_parse l); reflexivity.
Qed.

Lemma on_lines_accepted now ls : ∀ st,
  foldl (on_line JSON_parse now) st ls
  = deliver_all (accepted JSON_parse (map (pair now) ls)) st.
Proof.
  induction ls as [| l ls IH]; intros st; [reflexivity |].
  cbn [foldl map]. rewrite IH, accepted_cons, deliver_all_app.
  unfold on_line.
  destruct (is_blank l); [reflexivity |].
  destruct (JSON_parse l); reflexivity.
Qed.

Lemma on_data_accepted now data c sv :
  on_data JSON_parse now data (c, sv)
  = deliver_all
      (accepted JSON_parse
         (map (pair now) (complete_lines (buffer c +:+ data))))
      (set_buffer (remainder (buffer c +:+ data)) c, sv).
Proof. unfold on_data. by rewrite on_lines_accepted. Qed.

(** The reads of a connection deliver, in order, the lines that are not
    blank and parse, and nothing else. *)
Lemma feed_accepted chunks : ∀ c sv,
  feed JSON_parse chunks (c, sv)
  = deliver_all (accepted JSON_parse (tagged_lines (buffer c) chunks))
      (set_buffer (final_buffer (buffer c) chunks) c, sv).
Proof.
  induction chunks as [| [now data] chunks IH]; intros c sv.
  - simpl. by rewrite set_buffer_same.
  - unfold feed in *. cbn [foldl tagged_lines final_buffer].
    rewrite on_data_accepted.
    set (b1 := remainder (buffer c +:+ data)).
    set (A1 := accepted JSON_parse
                 (map (pair now) (complete_lines (buffer c +:+ data)))).
    rewrite deliver_all_set_buffer.
    destruct (deliver_all A1 (c, sv)) as [c1 sv1] eqn:H1.
    cbn [fst snd]. rewrite IH. cbn [buffer set_buffer].
    unfold accepted. rewrite omap_app. fold (accepted JSON_parse).
    fold A1. rewrite deliver_all_app.
    rewrite (deliver_all_set_buffer _ A1), H1. reflexivity.
Qed.

End FramerProperties.



Section FramerTheorem.

Variable JSON_parse : string → option Message.



End FramerTheorem.


(** * Further properties *)

(** ** The bounded history *)

Lemma length_slice_last {A} (n : nat) (l : list A) :
  (length (slice_last n l) ≤ n)%nat.
Proof. unfold slice_last. rewrite length_drop. lia. Qed.

Lemma slice_last_slice_last {A} (n m : nat) (l : list A) :
  (n ≤ m)%nat → slice_last n (slice_last m l) = slice_last n l.
Proof.
  intros Hnm. unfold slice_last. rewrite length_drop, drop_drop.
  f_equal. lia.
Qed.

Lemma tokenHistory_step s o :
  (length (tokenHistory s) ≤ 1000)%nat →
  (length (tokenHistory (apply_op s o)) ≤ 1000)%nat.
Proof.
  intros Hs. destruct o as [now k n | d | now d | now d | now d | now k | now];
    cbn [apply_op].
  - exact Hs.
  - unfold updateTopology. destruct (truthy_str _); [| exact Hs].
    destruct (nodes s !! _); exact Hs.
  - rewrite updateTokenStatus_history.
    destruct (movement_recorded _ _); [apply length_slice_last | exact Hs].
  - unfold updateStatistics. destruct d as [d |]; [| exact Hs].
    destruct (truthy_str _); [| exact Hs].
    destruct (nodes s !! _); exact Hs.
  - unfold updateDfsState. destruct (truthy_str _); exact Hs.
  - exact Hs.
  - simpl. lia.
Qed.

(** X1: whatever operations are applied to a fresh monitor,
    [tokenHistory] never holds more than 1000 movements. *)
Theorem tokenHistory_bounded (ops : list Op) :
  (length (tokenHistory (run ops fresh)) ≤ 1000)%nat.
Proof.
  induction ops as [| o ops IH] using rev_ind.
  - simpl. lia.
  - rewrite run_snoc. by apply tokenHistory_step.
Qed.

(** X2: after any sequence of [token_status] reports on a fresh monitor,
    [getTokenPath] is the last ten of all the movements recorded so far,
    oldest first: the cut of the history to 1000 never shows in it. *)
Theorem getTokenPath_last_ten (ds : list (Z * TokenData)) :
  getTokenPath (apply_token_updates ds fresh)
  = map path_entry (slice_last 10 (movements None ds))
  ∧ (length (getTokenPath (apply_token_updates ds fresh)) ≤ 10)%nat.
Proof.
  destruct (apply_token_updates_spec ds fresh [] eq_refl) as [_ H].
  unfold getTokenPath. split.
  - rewrite H. simpl. by rewrite slice_last_slice_last by lia.
  - rewrite length_map. apply length_slice_last.
Qed.

(** ** Token holds *)






(** ** Edges *)

Lemma one_way_sublist es es' :
  (∀ e, e ∈ es' → e ∈ es) → one_way es → one_way es'.
Proof. intros Hsub H e1 e2 H1 H2. apply H; auto. Qed.

Lemma one_way_rebuild k nbs es :
  one_way es →
  one_way (List.filter (λ e, negb (touches k e)) es ++ map (new_edge k) nbs).
Proof.
  intros Hes e1 e2 H1 H2 Hft Htf.
  assert (Hnew : ∀ e, e ∈ map (new_edge k) nbs → from e = k).
  { intros e He. change (map (new_edge k)) with (fmap (M:=list) (new_edge k)) in He.
    apply list_elem_of_fmap in He as (nb & -> & _). reflexivity. }
  assert (Hold : ∀ e, e ∈ List.filter (λ e, negb (touches k e)) es →
                      e ∈ es ∧ from e ≠ k ∧ to e ≠ k).
  { intros e He. apply elem_of_List_filter in He as [He Ht].
    apply negb_true_iff, touches_false in Ht. auto. }
  apply elem_of_app in H1 as [H1 | H1]; apply elem_of_app in H2 as [H2 | H2].
  - apply Hold in H1 as (H1 & _). apply Hold in H2 as (H2 & _).
    by apply (Hes e1 e2).
  - apply Hold in H1 as (_ & _ & H1). apply Hnew in H2. congruence.
  - apply Hold in H2 as (_ & _ & H2). apply Hnew in H1. congruence.
  - apply Hnew in H1. apply Hnew in H2. congruence.
Qed.

Lemma edges_well_formed_rebuild k nbs es :
  edges_well_formed es →
  edges_well_formed
    (List.filter (λ e, negb (touches k e)) es ++ map (new_edge k) nbs).
Proof.
  unfold edges_well_formed. rewrite !Forall_forall. intros Hes e He.
  apply elem_of_app in He as [He | He].
  - apply elem_of_List_filter in He as [He _]. by apply Hes.
  - change (map (new_edge k)) with (fmap (M:=list) (new_edge k)) in He.
    apply list_elem_of_fmap in He as (nb & -> & _). reflexivity.
Qed.

Lemma updateTopologyFromNode_edges_cases k n s :
  edges (topology (updateTopologyFromNode k n s)) = edges (topology s)
  ∨ ∃ nbs,
      edges (topology (updateTopologyFromNode k n s))
      = List.filter (λ e, negb (touches k e)) (edges (topology s))
        ++ map (new_edge k) nbs.
Proof.
  destruct (neighbors n) as [| | nbs] eqn:Hn.
  - left. unfold updateTopologyFromNode. simpl. by rewrite Hn.
  - left. unfold updateTopologyFromNode. simpl. by rewrite Hn.
  - right. eexists. by apply updateTopologyFromNode_edges.
Qed.

Lemma edges_step_cases s o :
  edges (topology (apply_op s o)) = edges (topology s)
  ∨ edges (topology (apply_op s o)) = []
  ∨ ∃ k nbs,
      edges (topology (apply_op s o))
      = List.filter (λ e, negb (touches k e)) (edges (topology s))
        ++ map (new_edge k) nbs.
Proof.
  destruct o as [now k n | d | now d | now d | now d | now k | now];
    cbn [apply_op].
  - rewrite updateNode_topology.
    destruct (updateTopologyFromNode_edges_cases k
                (set_lastUpdated now
                   (spread_node
                      (from_option (λ n, n) empty_node (nodes s !! k)) n))
                (with_nodes (nodes (updateNode now k n s)) s))
      as [H | (nbs & H)]; [left | right; right; exists k, nbs]; exact H.
  - unfold updateTopology. destruct (truthy_str _); [| by left].
    destruct (nodes s !! _) as [node |]; [| by left].
    match goal with
    | |- context [updateTopologyFromNode ?k ?n ?x] =>
        destruct (updateTopologyFromNode_edges_cases k n x)
          as [H | (nbs & H)]; [left | right; right; exists k, nbs]; exact H
    end.
  - left. unfold updateTokenStatus.
    destruct (movement_recorded _ _); simpl;
      destruct (truthy_str _); simpl; try reflexivity;
      destruct (_ !! _); reflexivity.
  - left. unfold updateStatistics. destruct d as [d |]; [| reflexivity].
    destruct (truthy_str _); [| reflexivity].
    destruct (nodes s !! _); reflexivity.
  - left. unfold updateDfsState. by destruct (truthy_str _).
  - right. right. exists k, []. simpl. by rewrite app_nil_r.
  - right. left. reflexivity.
Qed.

(** X4: in every state reached from a fresh monitor, the topology never
    links two distinct nodes in both directions (rebuilding the edges of
    a node drops the edges towards it), and every edge is of type
    ['neighbor'] with the id [from-to]. *)
Theorem edges_one_way (ops : list Op) :
  one_way (edges (topology (run ops fresh)))
  ∧ edges_well_formed (edges (topology (run ops fresh))).
Proof.
  induction ops as [| o ops [IH1 IH2]] using rev_ind.
  - split; [| by constructor].
    intros e1 e2 H1. simpl in H1. by apply not_elem_of_nil in H1.
  - rewrite run_snoc.
    destruct (edges_step_cases (run ops fresh) o) as [-> | [-> | (k & nbs & ->)]].
    + by split.
    + split; [| by constructor].
      intros e1 e2 H1. by apply not_elem_of_nil in H1.
    + split; [by apply one_way_rebuild | by apply edges_well_formed_rebuild].
Qed.

(** ** Keys of the maps *)

Lemma dom_nodes_step s o :
  dom (nodes (apply_op s o)) =
  match o with
  | OpUpdateNode _ k _ => {[k]} ∪ dom (nodes s)
  | OpRemoveNode _ k => dom (nodes s) ∖ {[k]}
  | OpReset _ => ∅
  | _ => dom (nodes s)
  end.
Proof.
  destruct o as [now k n | d | now d | now d | now d | now k | now];
    cbn [apply_op].
  - rewrite updateNode_nodes. apply dom_insert_L.
  - unfold updateTopology. destruct (truthy_str _); [| reflexivity].
    destruct (nodes s !! _) as [node |] eqn:Hk; [| reflexivity].
    rewrite updateTopologyFromNode_nodes. cbn [nodes with_nodes].
    rewrite dom_insert_L. apply elem_of_dom_2 in Hk. set_solver.
  - unfold updateTokenStatus.
    match goal with
    | |- dom (nodes (if _ then match nodes ?x !! _ with _ => _ end else _)) = _ =>
        assert (nodes x = nodes s) as Hx
          by (destruct (movement_recorded _ _); reflexivity)
    end.
    destruct (truthy_str _); [| by rewrite Hx].
    destruct (nodes _ !! _) as [node |] eqn:Hk; [| by rewrite Hx].
    cbn [nodes with_nodes]. rewrite dom_insert_L.
    apply elem_of_dom_2 in Hk. rewrite Hx in *. set_solver.
  - unfold updateStatistics. cbn [calculateGlobalStatistics nodes with_statistics].
    destruct d as [d |]; [| reflexivity].
    destruct (truthy_str _); [| reflexivity].
    destruct (nodes s !! _) as [node |] eqn:Hk; [| reflexivity].
    cbn [nodes with_nodes with_performanceMetrics]. rewrite dom_insert_L.
    apply elem_of_dom_2 in Hk. set_solver.
  - unfold updateDfsState. by destruct (truthy_str _).
  - unfold removeNode, updateStatistics. cbn. apply dom_delete_L.
  - unfold reset. cbn. apply dom_empty_L.
Qed.

Lemma dom_performanceMetrics_step s o :
  dom (performanceMetrics (apply_op s o)) ⊆
  match o with
  | OpUpdateStatistics _ (Some d) =>
      match su_nodeId d with
      | Val k => if bool_decide (is_Some (nodes s !! k))
                 then {[k]} ∪ dom (performanceMetrics s)
                 else dom (performanceMetrics s)
      | _ => dom (performanceMetrics s)
      end
  | OpRemoveNode _ k => dom (performanceMetrics s) ∖ {[k]}
  | OpReset _ => ∅
  | _ => dom (performanceMetrics s)
  end.
Proof.
  destruct o as [now k n | d | now d | now d | now d | now k | now];
    cbn [apply_op].
  - reflexivity.
  - unfold updateTopology. destruct (truthy_str _); [| reflexivity].
    destruct (nodes s !! _); reflexivity.
  - unfold updateTokenStatus.
    destruct (movement_recorded _ _); simpl;
      destruct (truthy_str _); simpl; try reflexivity;
      destruct (_ !! _); reflexivity.
  - unfold updateStatistics.
    cbn [calculateGlobalStatistics performanceMetrics with_statistics].
    destruct d as [d |]; [| reflexivity].
    destruct (su_nodeId d) as [| | k]; cbn [truthy_str]; try reflexivity.
    destruct (negb (String.eqb k "")).
    + destruct (nodes s !! k) as [node |] eqn:Hk.
      * rewrite bool_decide_eq_true_2 by eauto.
        cbn [performanceMetrics with_performanceMetrics].
        by rewrite dom_insert_L.
      * destruct (bool_decide _); set_solver.
    + destruct (bool_decide _); set_solver.
  - unfold updateDfsState. by destruct (truthy_str _).
  - unfold removeNode, updateStatistics. cbn. by rewrite dom_delete_L.
  - unfold reset. cbn. by rewrite dom_empty_L.
Qed.

(** X5: in every state reached from a fresh monitor, every node that has
    an entry in [performanceMetrics] is a key of [nodes]: metrics are
    kept for known nodes only and leave with the node. *)
Theorem performanceMetrics_of_known_nodes (ops : list Op) :
  dom (performanceMetrics (run ops fresh)) ⊆ dom (nodes (run ops fresh)).
Proof.
  induction ops as [| o ops IH] using rev_ind; [done |].
  rewrite run_snoc.
  pose proof (dom_performanceMetrics_step (run ops fresh) o) as Hp.
  rewrite dom_nodes_step.
  destruct o as [now k n | d | now d | now [d |] | now d | now k | now];
    try set_solver.
  destruct (su_nodeId d) as [| | k]; try set_solver.
  destruct (bool_decide (is_Some (nodes (run ops fresh) !! k))) eqn:Hk;
    [| set_solver].
  apply bool_decide_eq_true, elem_of_dom in Hk. set_solver.
Qed.

(** ** Reports that name an unknown node *)

Lemma filter_all {A} (p : A → bool) (l : list A) :
  (∀ x, x ∈ l → p x = true) → List.filter p l = l.
Proof.
  induction l as [| x l IH]; intros H; [reflexivity |]. simpl.
  rewrite (H x) by (apply elem_of_cons; by left).
  rewrite IH; [reflexivity |]. intros y Hy. apply H. apply elem_of_cons. by right.
Qed.

Lemma edges_closed_run ops : edges_closed (run ops fresh).
Proof.
  induction ops as [| o ops IH] using rev_ind.
  - intros e He. simpl in He. by apply not_elem_of_nil in He.
  - rewrite run_snoc. by apply edges_closed_step.
Qed.

(** X6: in a state reached from a fresh monitor, an operation that names
    a node that is not known changes neither [nodes] nor the edges:
    [updateTopology] and the node part of [updateStatistics] do nothing,
    [updateTokenStatus] touches no node, and [removeNode] removes no node
    and no edge.  (Of [topology.nodes], [removeNode] drops the entries
    whose [id] is the name, and a report may carry an [id] of its own: see
    [removeNode_by_reported_id].) *)
Theorem unknown_node_is_ignored (ops : list Op) (k : string) :
  nodes (run ops fresh) !! k = None →
  let s := run ops fresh in
  (∀ nbs, updateTopology (mkTopologyData (Val k) nbs) s = s)
  ∧ (∀ now bs br mr,
       let s' := updateStatistics now (Some (mkStatsData (Val k) bs br mr)) s in
       nodes s' = nodes s ∧ performanceMetrics s' = performanceMetrics s
       ∧ topology s' = topology s)
  ∧ (∀ now sq ph dp vc,
       nodes (updateTokenStatus now (mkTokenData (Val k) sq ph dp vc) s)
       = nodes s)
  ∧ (∀ now,
       nodes (removeNode now k s) = nodes s
       ∧ edges (topology (removeNode now k s)) = edges (topology s)).
Proof.
  intros Hk s. pose proof (edges_closed_run ops) as Hclosed.
  fold s in Hclosed, Hk.
  split; [| split; [| split]].
  - intros nbs. unfold updateTopology. cbn [tu_nodeId truthy_str].
    destruct (negb (String.eqb k "")); [| reflexivity]. by rewrite Hk.
  - intros now bs br mr. unfold updateStatistics. cbn [su_nodeId truthy_str].
    destruct (negb (String.eqb k "")); [| by repeat split].
    rewrite Hk. by repeat split.
  - intros now sq ph dp vc. unfold updateTokenStatus.
    cbn [td_currentHolder truthy_str].
    destruct (movement_recorded _ _);
      cbn [nodes with_statistics with_tokenHistory with_tokenStatus];
      destruct (negb (String.eqb k "")); try reflexivity;
      cbn [nodes with_statistics with_tokenHistory with_tokenStatus];
      rewrite Hk; reflexivity.
  - intros now. unfold removeNode, updateStatistics.
    cbn [calculateGlobalStatistics nodes topology with_statistics].
    split; [by apply delete_id |].
    cbn [edges]. apply filter_all. intros e He.
    apply negb_true_iff, touches_false.
    destruct (Hclosed e He) as [Hf Hto].
    split; intros <-; rewrite Hk in *; by (destruct Hf || destruct Hto).
Qed.

Lemma unknown_node_is_ignored_witness :
  let ops := [OpUpdateNode 1000 "node_A" sample_node] in
  nodes (run ops fresh) !! "node_Z"%string = None
  ∧ updateTopology (mkTopologyData (Val "node_Z"%string) (Val ["node_A"%string]))
      (run ops fresh)
    = run ops fresh
  ∧ nodes (removeNode 2000 "node_Z" (run ops fresh)) = nodes (run ops fresh).
Proof.
  intros ops.
  assert (Hk : nodes (run ops fresh) !! "node_Z"%string = None) by reflexivity.
  destruct (unknown_node_is_ignored ops "node_Z" Hk) as (H1 & _ & _ & H4).
  split; [exact Hk |]. split; [apply H1 | apply (H4 2000)].
Defined.

(** The entries of [topology.nodes] are another matter: a [node_info]
    report for node_A that carries [id: 'node_Z'] gives node_A's entry the
    id node_Z, and [removeNode('node_Z')], which names no known node,
    then empties [topology.nodes] while node_A stays in [nodes]. *)
Lemma removeNode_by_reported_id :
  let report :=
    mkNode Absent Absent Absent Absent Absent Absent Absent Absent Absent
           Absent Absent Absent Absent (Val "node_Z"%string) Absent Absent in
  let s := run [OpUpdateNode 1000 "node_A" report] fresh in
  let s' := removeNode 2000 "node_Z" s in
  nodes s !! "node_Z"%string = None
  ∧ map node_id (topo_nodes (topology s)) = [Val "node_Z"%string]
  ∧ topo_nodes (topology s') = []
  ∧ is_Some (nodes s' !! "node_A"%string).
Proof. vm_compute. eauto. Qed.

(** ** Aggregates that are never stale *)

Lemma foldl_Permutation {A} (g : Z → A → Z) (l l' : list A) :
  (∀ a x y, g (g a x) y = g (g a y) x) →
  l ≡ₚ l' → ∀ a, foldl g a l = foldl g a l'.
Proof.
  intros Hg. induction 1 as [| x l l' _ IH | x y l | l l' l'' _ IH1 _ IH2];
    intros a; simpl.
  - reflexivity.
  - apply IH.
  - by rewrite Hg.
  - by rewrite IH1, IH2.
Qed.

Lemma values_lookup {A} (m : gmap string A) k x :
  m !! k = Some x → values m ≡ₚ x :: values (delete k m).
Proof.
  intros Hk. unfold values.
  by rewrite <- (map_to_list_delete m k x Hk).
Qed.

Lemma values_insert {A} (m : gmap string A) k x :
  values (<[k := x]> m) ≡ₚ x :: values (delete k m).
Proof.
  unfold values. rewrite <- insert_delete_eq.
  rewrite map_to_list_insert by apply lookup_delete_eq. reflexivity.
Qed.

(** Replacing a node by one with the same status and counters changes
    none of the four sums. *)
Lemma aggregates_insert now k n n' s s' :
  nodes s !! k = Some n → same_counters n n' →
  nodes s' = <[k := n']> (nodes s) →
  let st := statistics (calculateGlobalStatistics now s) in
  let st' := statistics (calculateGlobalStatistics now s') in
  totalNodes st' = totalNodes st
  ∧ activeNodes st' = activeNodes st
  ∧ totalBandwidth st' = totalBandwidth st
  ∧ stat_messagesRelayed st' = stat_messagesRelayed st.
Proof.
  intros Hk (Hst & Hbs & Hbr & Hmr) Hn. simpl. rewrite Hn.
  pose proof (values_lookup (nodes s) k n Hk) as P1.
  pose proof (values_insert (nodes s) k n') as P2.
  split; [| split; [| split]].
  - by rewrite (Permutation_length P1), (Permutation_length P2).
  - rewrite (length_filter_Permutation _ _ _ P1).
    rewrite (length_filter_Permutation _ _ _ P2).
    simpl. unfold is_active. rewrite Hst.
    by destruct (field_eqb (status n') (Val "active"%string)).
  - set (g := λ (sum : Z) (x : NodeRec),
                sum + or0 (bytesSent x) + or0 (bytesReceived x)).
    assert (Hg : ∀ a x y, g (g a x) y = g (g a y) x) by (intros; unfold g; lia).
    rewrite (foldl_Permutation g _ _ Hg P1), (foldl_Permutation g _ _ Hg P2).
    simpl. unfold g at 2 4. by rewrite Hbs, Hbr.
  - set (g := λ (sum : Z) (x : NodeRec), sum + or0 (messagesRelayed x)).
    assert (Hg : ∀ a x y, g (g a x) y = g (g a y) x) by (intros; unfold g; lia).
    rewrite (foldl_Permutation g _ _ Hg P1), (foldl_Permutation g _ _ Hg P2).
    simpl. unfold g at 2 4. by rewrite Hmr.
Qed.

Lemma node_aggregates_recomputed now s :
  node_aggregates_current (calculateGlobalStatistics now s).
Proof. intros now'. by repeat split. Qed.

Lemma node_aggregates_insert k n n' s s' :
  nodes s !! k = Some n → same_counters n n' →
  nodes s' = <[k := n']> (nodes s) →
  totalNodes (statistics s') = totalNodes (statistics s) →
  activeNodes (statistics s') = activeNodes (statistics s) →
  totalBandwidth (statistics s') = totalBandwidth (statistics s) →
  stat_messagesRelayed (statistics s') = stat_messagesRelayed (statistics s) →
  node_aggregates_current s → node_aggregates_current s'.
Proof.
  intros Hk Hsame Hn E1 E2 E3 E4 Hs now.
  destruct (aggregates_insert now k n n' s s' Hk Hsame Hn) as (A1 & A2 & A3 & A4).
  destruct (Hs now) as (B1 & B2 & B3 & B4).
  cbv zeta in *. rewrite E1, E2, E3, E4, A1, A2, A3, A4. auto.
Qed.

Lemma node_aggregates_step s o :
  node_aggregates_current s → node_aggregates_current (apply_op s o).
Proof.
  intros Hs. destruct o as [now k n | d | now d | now d | now d | now k | now];
    cbn [apply_op]; try apply node_aggregates_recomputed.
  - (* updateTopology *)
    unfold updateTopology. destruct (truthy_str _); [| exact Hs].
    destruct (nodes s !! _) as [node |] eqn:Hk; [| exact Hs].
    eapply (node_aggregates_insert _ node); try exact Hs; try reflexivity.
    + exact Hk.
    + by repeat split.
  - (* updateTokenStatus *)
    unfold updateTokenStatus.
    match goal with
    | |- node_aggregates_current
           (if _ then match nodes ?x !! _ with _ => _ end else _) =>
        assert (node_aggregates_current x) as Hx
    end.
    { destruct (movement_recorded _ _); [| exact Hs].
      intros now'. destruct (Hs now') as (B1 & B2 & B3 & B4). by repeat split. }
    destruct (truthy_str _); [| exact Hx].
    destruct (nodes _ !! _) as [node |] eqn:Hk; [| exact Hx].
    eapply (node_aggregates_insert _ node); try exact Hx; try reflexivity.
    + exact Hk.
    + by repeat split.
  - (* updateDfsState *)
    unfold updateDfsState. destruct (truthy_str _); [| exact Hs].
    intros now'. destruct (Hs now') as (B1 & B2 & B3 & B4). by repeat split.
Qed.

Lemma node_aggregates_reachable ops : node_aggregates_current (run ops fresh).
Proof.
  induction ops as [| o ops IH] using rev_ind.
  - intros now. by repeat split.
  - rewrite run_snoc. by apply node_aggregates_step.
Qed.

(** X7: [totalNodes], [activeNodes], [totalBandwidth] and
    [messagesRelayed] are never stale: in every state reached from a
    fresh monitor they are the values a recomputation would give at any
    time, also after the operations that do not recompute. *)
Theorem node_aggregates_always_current (ops : list Op) :
  node_aggregates_current (run ops fresh)
  ∧ totalNodes (statistics (run ops fresh))
    = Z.of_nat (size (nodes (run ops fresh)))
  ∧ 0 ≤ activeNodes (statistics (run ops fresh))
    ≤ totalNodes (statistics (run ops fresh)).
Proof.
  pose proof (node_aggregates_reachable ops) as H.
  split; [exact H |]. destruct (H 0) as (H1 & H2 & _ & _). cbv zeta in *.
  rewrite H1, H2, totalNodes_size. split; [reflexivity |].
  simpl. rewrite <- length_values. split; [lia |].
  apply inj_le. apply List.filter_length_le.
Qed.

(** ** The average hold time *)

Lemma last_cons_default {A} (x : A) (l : list A) (d d' : A) :
  List.last (x :: l) d = List.last (x :: l) d'.
Proof.
  revert x. induction l as [| y l IH]; intros x; [reflexivity |].
  change (List.last (y :: l) d = List.last (y :: l) d'). apply IH.
Qed.

Lemma intervals_telescope (a : Z) (l : list Z) :
  sum_list (intervals (a :: l)) = List.last l a - a
  ∧ length (intervals (a :: l)) = length l.
Proof.
  unfold sum_list.
  assert (H : ∀ l a acc,
            foldl Z.add acc (intervals (a :: l)) = acc + (List.last l a - a)
            ∧ length (intervals (a :: l)) = length l).
  { clear. induction l as [| b l IH]; intros a acc.
    - simpl. split; [lia | reflexivity].
    - change (intervals (a :: b :: l)) with ((b - a) :: intervals (b :: l)).
      cbn [foldl length].
      destruct (IH b (acc + (b - a))) as [-> ->]. split; [| reflexivity].
      destruct l as [| c l]; [simpl; lia |].
      change (List.last (b :: c :: l) a) with (List.last (c :: l) a).
      rewrite (last_cons_default c l b a). lia. }
  destruct (H l a 0) as [-> ->]. split; [lia | reflexivity].
Qed.

(** X8: when at least two movements fall in the last minute, the
    recomputed [averageTokenHoldTime] is the time between the oldest and
    the newest of them divided by their number minus one; with fewer, the
    previous value is kept. *)
Theorem averageTokenHoldTime_spans_window (now : Z) (s : NetworkMonitor) :
  let st' := statistics (calculateGlobalStatistics now s) in
  match tokenHoldTimes now (tokenHistory s) with
  | first :: second :: rest =>
      averageTokenHoldTime st'
      = Finite (inject_Z (List.last (second :: rest) first - first)
                / inject_Z (Z.of_nat (length (second :: rest))))%Q
  | _ => averageTokenHoldTime st' = averageTokenHoldTime (statistics s)
  end.
Proof.
  cbn [calculateGlobalStatistics statistics with_statistics
       averageTokenHoldTime].
  destruct (tokenHoldTimes now (tokenHistory s)) as [| a [| b l]] eqn:Ht.
  - reflexivity.
  - reflexivity.
  - destruct (decide (1 < length (a :: b :: l))%nat) as [_ | H];
      [| simpl in H; lia].
    destruct (intervals_telescope a (b :: l)) as [-> ->].
    unfold js_div.
    destruct (decide (Z.of_nat (length (b :: l)) = 0)) as [H0 |];
      [simpl in H0; lia | reflexivity].
Qed.

(** ** The server *)

Lemma handleNodeMessage_monitor sock m t sv :
  networkMonitor (handleNodeMessage sock m t sv)
  = run (op_of_message sock t m) (networkMonitor sv).
Proof.
  unfold handleNodeMessage.
  destruct m; cbn; destruct (isRecording sv); reflexivity.
Qed.

Lemma handleNodeMessage_connectedNodes sock m t sv :
  connectedNodes (handleNodeMessage sock m t sv)
  = match m with
    | node_info nodeId data =>
        <[nodeId := stamp_nodeInfo sock t data]> (connectedNodes sv)
    | _ => connectedNodes sv
    end.
Proof.
  unfold handleNodeMessage.
  destruct m; cbn; destruct (isRecording sv); reflexivity.
Qed.

Lemma handleNodeMessage_emitted sock m t sv :
  emitted (handleNodeMessage sock m t sv)
  = emitted sv ++ broadcast_of sock t m.
Proof.
  unfold handleNodeMessage.
  destruct m; cbn; destruct (isRecording sv); cbn;
    by rewrite ?app_nil_r.
Qed.

Lemma handleNodeMessage_database sock m t sv :
  isRecording (handleNodeMessage sock m t sv) = isRecording sv
  ∧ database (handleNodeMessage sock m t sv)
    = if isRecording sv then recordEvent m t (database sv) else database sv.
Proof.
  unfold handleNodeMessage.
  destruct m;
    unfold handleNodeInfo, handleTokenStatus, handleTopologyUpdate,
      handleStatisticsUpdate, handleDfsState, broadcastToClients, with_monitor;
    cbn [isRecording database];
    destruct (isRecording sv) eqn:Hr; split; cbn; rewrite ?Hr; reflexivity.
Qed.

Lemma on_close_frame c sv :
  networkMonitor (on_close c sv).2 = networkMonitor sv
  ∧ database (on_close c sv).2 = database sv
  ∧ isRecording (on_close c sv).2 = isRecording sv
  ∧ dom (connectedNodes (on_close c sv).2) ⊆ dom (connectedNodes sv).
Proof.
  unfold on_close. destruct (conn_nodeId c) as [k |]; [| done].
  destruct (_ && _); [| done]. cbn. repeat split; try done.
  rewrite dom_delete_L. set_solver.
Qed.

Lemma run_server_snoc evs ev sv :
  run_server (evs ++ [ev]) sv = server_step (run_server evs sv) ev.
Proof. unfold run_server. by rewrite foldl_snoc. Qed.

Lemma run_app ops1 ops2 s : run (ops1 ++ ops2) s = run ops2 (run ops1 s).
Proof. unfold run. apply foldl_app. Qed.

Lemma server_step_monitor sv ev :
  networkMonitor (server_step sv ev)
  = run (ops_of_event ev) (networkMonitor sv).
Proof.
  destruct ev as [sock m t | c | uuid | |]; cbn [server_step ops_of_event].
  - apply handleNodeMessage_monitor.
  - apply on_close_frame.
  - unfold startRecording. by destruct (isRecording sv).
  - unfold stopRecording. by destruct (isRecording sv).
  - reflexivity.
Qed.

Lemma run_server_monitor evs sv :
  networkMonitor (run_server evs sv)
  = run (concat (map ops_of_event evs)) (networkMonitor sv).
Proof.
  induction evs as [| ev evs IH] using rev_ind; [reflexivity |].
  rewrite run_server_snoc, server_step_monitor, IH.
  rewrite map_app, concat_app, run_app. simpl. by rewrite app_nil_r.
Qed.

(** X9: the monitor of the server is driven by the reports alone: after
    any sequence of reports, closes and recording commands, its state is
    the one the reported operations give, in order.  The server never
    calls [removeNode] or [reset], so no node ever leaves the monitor. *)
Theorem monitor_follows_reports (evs : list ServerEvent) :
  let ops := concat (map ops_of_event evs) in
  networkMonitor (run_server evs initial_server) = run ops fresh
  ∧ Forall (λ o, match o with
                 | OpRemoveNode _ _ | OpReset _ => False
                 | _ => True
                 end) ops
  ∧ ∀ ev, dom (nodes (networkMonitor (run_server evs initial_server)))
          ⊆ dom (nodes (networkMonitor
                          (run_server (evs ++ [ev]) initial_server))).
Proof.
  intros ops. split; [apply run_server_monitor |]. split.
  - subst ops. apply Forall_concat, Forall_fmap, Forall_forall.
    intros [sock m t | c | uuid | |] _; cbn; try by constructor.
    destruct m; cbn; by repeat constructor.
  - intros ev. rewrite run_server_snoc, server_step_monitor.
    generalize (networkMonitor (run_server evs initial_server)). intros s.
    destruct ev as [sock m t | c | uuid | |]; cbn [ops_of_event]; try done.
    destruct m; cbn [op_of_message run foldl]; try done;
      rewrite dom_nodes_step; set_solver.
Qed.

(** Every node of the monitor has the status the server stamps. *)
Lemma nodes_active_step s o :
  match o with
  | OpUpdateNode _ _ nodeInfo => status nodeInfo = Val "active"%string
  | _ => True
  end →
  map_Forall (λ _ n, status n = Val "active"%string) (nodes s) →
  map_Forall (λ _ n, status n = Val "active"%string) (nodes (apply_op s o)).
Proof.
  intros Ho Hs.
  destruct o as [now k n | d | now d | now d | now d | now k | now];
    cbn [apply_op].
  - rewrite updateNode_nodes. apply map_Forall_insert_2; [| exact Hs].
    cbn. by rewrite Ho.
  - unfold updateTopology. destruct (truthy_str _); [| exact Hs].
    destruct (nodes s !! _) as [node |] eqn:Hk; [| exact Hs].
    rewrite updateTopologyFromNode_nodes. cbn [nodes with_nodes].
    apply map_Forall_insert_2; [| exact Hs]. cbn. by apply (Hs _ _ Hk).
  - unfold updateTokenStatus.
    match goal with
    | |- map_Forall _
           (nodes (if _ then match nodes ?x !! _ with _ => _ end else _)) =>
        assert (nodes x = nodes s) as Hx
          by (destruct (movement_recorded _ _); reflexivity)
    end.
    destruct (truthy_str _); [| by rewrite Hx].
    destruct (nodes _ !! _) as [node |] eqn:Hk; [| by rewrite Hx].
    cbn [nodes with_nodes]. rewrite Hx in *.
    apply map_Forall_insert_2; [| exact Hs]. cbn. by apply (Hs _ _ Hk).
  - unfold updateStatistics.
    cbn [calculateGlobalStatistics nodes with_statistics].
    destruct d as [d |]; [| exact Hs].
    destruct (truthy_str _); [| exact Hs].
    destruct (nodes s !! _) as [node |] eqn:Hk; [| exact Hs].
    cbn [nodes with_nodes with_performanceMetrics].
    apply map_Forall_insert_2; [| exact Hs]. cbn. by apply (Hs _ _ Hk).
  - unfold updateDfsState. by destruct (truthy_str _).
  - unfold removeNode, updateStatistics. cbn. by apply map_Forall_delete.
  - unfold reset. cbn. apply map_Forall_empty.
Qed.

Lemma nodes_active_run ops : ∀ s,
  Forall (λ o, match o with
               | OpUpdateNode _ _ nodeInfo => status nodeInfo = Val "active"%string
               | _ => True
               end) ops →
  map_Forall (λ _ n, status n = Val "active"%string) (nodes s) →
  map_Forall (λ _ n, status n = Val "active"%string) (nodes (run ops s)).
Proof.
  induction ops as [| o ops IH]; intros s Hops Hs; [exact Hs |].
  inversion Hops; subst. cbn. apply IH; [assumption |].
  by apply nodes_active_step.
Qed.

Lemma ops_of_event_stamped ev :
  Forall (λ o, match o with
               | OpUpdateNode _ _ nodeInfo => status nodeInfo = Val "active"%string
               | _ => True
               end) (ops_of_event ev).
Proof.
  destruct ev as [sock m t | c | uuid | |]; cbn; try by constructor.
  destruct m; cbn; by repeat constructor.
Qed.

(** X10: whatever status the reports carry, every node of the server's
    monitor has status ['active'], also after its connection closed; so
    [activeNodes] always equals [totalNodes]. *)
Theorem every_node_is_active (evs : list ServerEvent) :
  let m := networkMonitor (run_server evs initial_server) in
  map_Forall (λ _ n, status n = Val "active"%string) (nodes m)
  ∧ activeNodes (statistics m) = totalNodes (statistics m).
Proof.
  intros m.
  assert (Hm : m = run (concat (map ops_of_event evs)) fresh)
    by apply run_server_monitor.
  assert (Hall : map_Forall (λ _ n, status n = Val "active"%string) (nodes m)).
  { rewrite Hm. apply nodes_active_run; [| apply map_Forall_empty].
    apply Forall_concat, Forall_fmap, Forall_forall.
    intros ev _. apply ops_of_event_stamped. }
  split; [exact Hall |].
  destruct (node_aggregates_reachable (concat (map ops_of_event evs)) 0)
    as (H1 & H2 & _ & _).
  rewrite <- Hm in H1, H2. cbv zeta in H1, H2. rewrite H1, H2. simpl.
  f_equal. f_equal. apply filter_all. intros n Hn.
  unfold values in Hn.
  apply list_elem_of_fmap in Hn as ([k n'] & -> & Hkn).
  apply elem_of_map_to_list in Hkn. cbn [snd]. unfold is_active.
  by rewrite (Hall k n' Hkn).
Qed.

(** X11: after any sequence of server events, every node of
    [connectedNodes] is a node of the monitor. *)
Theorem connected_nodes_are_monitored (evs : list ServerEvent) :
  dom (connectedNodes (run_server evs initial_server))
  ⊆ dom (nodes (networkMonitor (run_server evs initial_server))).
Proof.
  induction evs as [| ev evs IH] using rev_ind; [done |].
  rewrite run_server_snoc.
  set (sv := run_server evs initial_server) in *.
  rewrite server_step_monitor.
  destruct ev as [sock m t | c | uuid | |]; cbn [server_step ops_of_event].
  - rewrite handleNodeMessage_connectedNodes.
    destruct m; cbn [op_of_message run foldl];
      try rewrite dom_nodes_step; try rewrite dom_insert_L; set_solver.
  - destruct (on_close_frame c sv) as (_ & _ & _ & H). set_solver.
  - unfold startRecording. cbn. by destruct (isRecording sv).
  - unfold stopRecording. cbn. by destruct (isRecording sv).
  - done.
Qed.

Lemma recordEvent_currentSessionId m t db :
  currentSessionId (recordEvent m t db) = currentSessionId db.
Proof.
  unfold recordEvent.
  destruct (currentSessionId db) eqn:H; cbn; rewrite ?H; reflexivity.
Qed.

Lemma recordEvent_ending m t db : ending (recordEvent m t db) = ending db.
Proof. unfold recordEvent. by destruct (currentSessionId db). Qed.

(** X12: once recording is stopped and no [endRecordingSession] is
    suspended on its queries any more, the database has no current
    session.  ([isRecording] and the current session do not go together
    otherwise: see [start_during_stop_loses_session].) *)
Theorem no_session_after_stop (evs : list ServerEvent) :
  let sv := run_server evs initial_server in
  isRecording sv = false → ending (database sv) = 0%nat →
  currentSessionId (database sv) = None.
Proof.
  induction evs as [| ev evs IH] using rev_ind; [reflexivity |].
  cbv zeta in *. rewrite run_server_snoc.
  set (sv := run_server evs initial_server) in *.
  destruct ev as [sock m t | c | uuid | |]; cbn [server_step].
  - destruct (handleNodeMessage_database sock m t sv) as [-> ->].
    destruct (isRecording sv); [discriminate | exact IH].
  - destruct (on_close_frame c sv) as (_ & -> & -> & _). exact IH.
  - unfold startRecording. destruct (isRecording sv) eqn:Hr.
    + rewrite Hr. discriminate.
    + cbn. discriminate.
  - unfold stopRecording. destruct (isRecording sv) eqn:Hr.
    + cbn. intros _. unfold endRecordingSession.
      destruct (currentSessionId (database sv)) eqn:Hc; cbn;
        [discriminate | by rewrite Hc].
    + rewrite Hr. exact IH.
  - cbn. unfold endRecordingSession_resumed.
    destruct (ending (database sv)) eqn:He; cbn; [| reflexivity].
    rewrite He. exact IH.
Qed.

Lemma no_session_after_stop_witness :
  let evs := [EvStartRecording "s1"; EvMessage 1 (other "ping") 1000;
              EvStopRecording; EvSessionEnded] in
  let sv := run_server evs initial_server in
  isRecording sv = false
  ∧ ending (database sv) = 0%nat
  ∧ currentSessionId (database sv) = None.
Proof.
  intros evs sv.
  assert (Hr : isRecording sv = false) by reflexivity.
  assert (He : ending (database sv) = 0%nat) by reflexivity.
  split; [exact Hr |]. split; [exact He |].
  exact (no_session_after_stop evs Hr He).
Defined.

(** [stopRecording] does not await [endRecordingSession]: right after the
    stop [isRecording] is false with the session still current; and a
    recording started before the suspended call ends loses its session
    when it does, so that [isRecording] is true, there is no current
    session and the reports are not recorded. *)
Lemma start_during_stop_loses_session :
  let sv1 := run_server [EvStartRecording "s1"; EvStopRecording]
                        initial_server in
  let sv2 := run_server [EvStartRecording "s2"; EvSessionEnded;
                         EvMessage 1 (other "ping") 1000] sv1 in
  isRecording sv1 = false
  ∧ currentSessionId (database sv1) = Some "s1"%string
  ∧ isRecording sv2 = true
  ∧ currentSessionId (database sv2) = None
  ∧ network_events (database sv2) = [].
Proof. vm_compute. auto. Qed.

(** X13: the reports of known type are broadcast one for one, in the
    order of dispatch, on the channel of their type and with their data
    (stamped, for a [node_info]); a report of unknown type is broadcast
    nowhere. *)
Theorem broadcasts_follow_reports (ms : list (nat * Message * Z))
    (sv : Server) :
  emitted (foldl dispatch sv ms)
  = emitted sv ++ concat (map (λ m, broadcast_of m.1.1 m.2 m.1.2) ms).
Proof.
  revert sv. induction ms as [| [[sock m] t] ms IH]; intros sv.
  - simpl. by rewrite app_nil_r.
  - cbn [foldl map concat]. rewrite IH. unfold dispatch. cbn [fst snd].
    by rewrite handleNodeMessage_emitted, <- app_assoc.
Qed.


(** ** The event store *)

(** What is recorded while a session is current and no
    [endRecordingSession] is suspended. *)
Lemma session_records sid evs : ∀ sv,
  isRecording sv = true → currentSessionId (database sv) = Some sid →
  ending (database sv) = 0%nat →
  Forall no_recording_command evs →
  let sv' := run_server evs sv in
  isRecording sv' = true
  ∧ currentSessionId (database sv') = Some sid
  ∧ ∃ rows,
      network_events (database sv') = network_events (database sv) ++ rows
      ∧ map (λ r, (session_id r, event r, row_timestamp r)) rows
        = map (λ m, (sid, m.1, m.2)) (reports_of evs).
Proof.
  induction evs as [| ev evs IH]; intros sv Hr Hc He Hevs.
  - cbn. split; [exact Hr |]. split; [exact Hc |]. exists []. split; [| done].
    by rewrite app_nil_r.
  - cbv zeta in *. apply Forall_cons in Hevs as [Hev Hevs].
    change (run_server (ev :: evs) sv) with (run_server evs (server_step sv ev)).
    destruct ev as [sock m t | c | uuid | |]; cbn [no_recording_command] in Hev;
      try contradiction; cbn [server_step].
    + destruct (handleNodeMessage_database sock m t sv) as [Hr' Hd'].
      rewrite Hr in Hr', Hd'.
      destruct (IH (handleNodeMessage sock m t sv)) as (H1 & H2 & rows & H3 & H4);
        try assumption.
      * by rewrite Hd', recordEvent_currentSessionId.
      * by rewrite Hd', recordEvent_ending.
      * split; [exact H1 |]. split; [exact H2 |].
        rewrite Hd' in H3. unfold recordEvent in H3. rewrite Hc in H3.
        cbn [network_events] in H3. eexists (_ :: rows). split.
        -- rewrite H3, <- app_assoc. reflexivity.
        -- cbn [reports_of omap map]. cbn. by rewrite H4.
    + destruct (on_close_frame c sv) as (_ & Hd' & Hr' & _).
      destruct (IH (on_close c sv).2) as (H1 & H2 & rows & H3 & H4);
        rewrite ?Hd', ?Hr'; try assumption.
      split; [exact H1 |]. split; [exact H2 |]. exists rows.
      rewrite Hd' in H3. by split.
    + assert (Hd' : endRecordingSession_resumed (database sv) = database sv)
        by (unfold endRecordingSession_resumed; by rewrite He).
      rewrite Hd'.
      destruct (IH (mkServer (connectedNodes sv) (networkMonitor sv)
                             (database sv) (isRecording sv) (emitted sv)))
        as (H1 & H2 & rows & H3 & H4); try assumption.
      split; [exact H1 |]. split; [exact H2 |]. exists rows. by split.
Qed.

Lemma StronglySorted_timestamps rows :
  StronglySorted Z.lt (map row_timestamp rows) →
  StronglySorted (λ x y, row_timestamp x < row_timestamp y) rows.
Proof.
  induction rows as [| r rows IH]; intros H; [constructor |].
  simpl in H. apply StronglySorted_inv in H as [Hl Hx].
  constructor; [by apply IH |].
  rewrite Forall_forall in Hx. apply Forall_forall. intros y Hy. apply Hx.
  change (map row_timestamp) with (fmap (M:=list) row_timestamp).
  apply list_elem_of_fmap. by exists y.
Qed.

(** X16: record and replay.  When recording is started while it is off
    and no [endRecordingSession] is suspended, with a session id that has
    no events yet, and reports arrive at increasing times (between closes
    of connections, and before recording is stopped), the events loaded
    for that session after the stop are those reports with their
    timestamps, in the order of arrival, and playback sends exactly them
    and then [playback_complete]. *)
Theorem recorded_session_replays (sv : Server) (uuid : string)
    (evs : list ServerEvent) (k : nat) :
  isRecording sv = false →
  ending (database sv) = 0%nat →
  session_rows uuid (database sv) = [] →
  Forall no_recording_command evs →
  StronglySorted Z.lt (map snd (reports_of evs)) →
  (length (reports_of evs) < k)%nat →
  let sv' := stopRecording (run_server evs (startRecording uuid sv)) in
  let loaded := getRecordingEvents uuid (database sv') in
  map (λ r, (event r, row_timestamp r)) loaded = reports_of evs
  ∧ sent (ticks k (startPlayback uuid (database sv')))
    = map playback_event loaded ++ [playback_complete]
  ∧ isRecording sv' = false.
Proof.
  intros Hr He Hempty Hevs Hsorted Hk sv' loaded.
  set (ms := reports_of evs) in *.
  set (sv1 := startRecording uuid sv).
  assert (H1 : isRecording sv1 = true
               ∧ currentSessionId (database sv1) = Some uuid
               ∧ ending (database sv1) = 0%nat
               ∧ network_events (database sv1) = network_events (database sv)).
  { subst sv1. unfold startRecording. rewrite Hr. by cbn. }
  destruct H1 as (Hr1 & Hc1 & He1 & Hn1).
  destruct (session_records uuid evs sv1 Hr1 Hc1 He1 Hevs)
    as (Hr2 & Hc2 & rows & Hn2 & Hrows).
  cbv zeta in Hr2, Hc2, Hn2. fold ms in Hrows.
  assert (Hn3 : network_events (database sv')
                = network_events (database sv) ++ rows).
  { subst sv'. fold sv1. unfold stopRecording. rewrite Hr2. cbn.
    unfold endRecordingSession. rewrite Hc2. cbn.
    by rewrite Hn2, Hn1. }
  assert (Hr3 : isRecording sv' = false).
  { subst sv'. fold sv1. unfold stopRecording. by rewrite Hr2. }
  assert (Hsess : session_rows uuid (database sv') = rows).
  { unfold session_rows in *. rewrite Hn3, List.filter_app, Hempty. simpl.
    apply filter_all. intros r Hr'.
    assert (Hin : (session_id r, event r, row_timestamp r)
                  ∈ map (λ m : Message * Z, (uuid, m.1, m.2)) ms).
    { rewrite <- Hrows.
      change (map ?f rows) with (fmap (M:=list) f rows).
      apply list_elem_of_fmap. by exists r. }
    change (map ?f ms) with (fmap (M:=list) f ms) in Hin.
    apply list_elem_of_fmap in Hin as (m & Heq & _).
    injection Heq as -> _ _. apply String.eqb_refl. }
  assert (Hts : map row_timestamp rows = map snd ms).
  { apply (f_equal (map snd)) in Hrows. rewrite !map_map in Hrows.
    exact Hrows. }
  assert (Hloaded : loaded = rows).
  { subst loaded. unfold getRecordingEvents. rewrite Hsess.
    apply order_by_timestamp_increasing, StronglySorted_timestamps.
    by rewrite Hts. }
  split; [| split; [| exact Hr3]].
  - rewrite Hloaded.
    apply (f_equal (map (λ x : string * Message * Z, (x.1.2, x.2)))) in Hrows.
    rewrite !map_map in Hrows. cbn in Hrows. rewrite Hrows.
    clear. induction ms as [| [m t] ms IH]; [reflexivity |].
    cbn. by rewrite IH.
  - unfold startPlayback. fold loaded. rewrite ticks_complete; [reflexivity |].
    rewrite Hloaded. apply (f_equal length) in Hts.
    rewrite !length_map in Hts. lia.
Qed.

Lemma recorded_session_replays_witness :
  let evs := [EvMessage 1 (node_info "node_A" sample_node) 1000;
              EvSessionEnded;
              EvMessage 1 (other "heartbeat_response") 2000] in
  let sv' := stopRecording
               (run_server evs (startRecording "s1" initial_server)) in
  isRecording initial_server = false
  ∧ ending (database initial_server) = 0%nat
  ∧ session_rows "s1" (database initial_server) = []
  ∧ Forall no_recording_command evs
  ∧ StronglySorted Z.lt (map snd (reports_of evs))
  ∧ (length (reports_of evs) < 3)%nat
  ∧ sent (ticks 3 (startPlayback "s1" (database sv')))
    = [playback_event (mkRow 1 "s1" 1000 (node_info "node_A" sample_node));
       playback_event (mkRow 2 "s1" 2000 (other "heartbeat_response"));
       playback_complete].
Proof.
  intros evs sv'.
  assert (Hevs : Forall no_recording_command evs)
    by (repeat apply List.Forall_cons; try apply List.Forall_nil; exact I).
  assert (Hs : StronglySorted Z.lt (map snd (reports_of evs))).
  { repeat constructor. }
  assert (Hk : (length (reports_of evs) < 3)%nat) by (simpl; lia).
  destruct (recorded_session_replays initial_server "s1" evs 3
              eq_refl eq_refl eq_refl Hevs Hs Hk) as (_ & Hsent & _).
  split; [reflexivity |]. split; [reflexivity |]. split; [reflexivity |].
  split; [exact Hevs |]. split; [exact Hs |].
  split; [exact Hk |]. unfold sv'. rewrite Hsent. reflexivity.
Defined.

(** A session that is not the current one keeps its rows. *)
Lemma server_step_closed_session sid sv ev :
  ev ≠ EvStartRecording sid →
  currentSessionId (database sv) ≠ Some sid →
  currentSessionId (database (server_step sv ev)) ≠ Some sid
  ∧ session_rows sid (database (server_step sv ev))
    = session_rows sid (database sv).
Proof.
  intros Hev Hc. destruct ev as [sock m t | c | uuid | |]; cbn [server_step].
  - destruct (handleNodeMessage_database sock m t sv) as [_ ->].
    destruct (isRecording sv); [| by split].
    split; [by rewrite recordEvent_currentSessionId |].
    unfold recordEvent.
    destruct (currentSessionId (database sv)) as [cur |] eqn:Hcur; [| done].
    unfold session_rows. cbn [network_events].
    rewrite List.filter_app. cbn [List.filter session_id].
    assert (String.eqb cur sid = false) as ->
      by (apply String.eqb_neq; congruence).
    by rewrite app_nil_r.
  - destruct (on_close_frame c sv) as (_ & -> & _). by split.
  - unfold startRecording. destruct (isRecording sv); [by split |].
    cbn. split; [congruence | reflexivity].
  - unfold stopRecording. destruct (isRecording sv); [| by split].
    cbn. unfold endRecordingSession.
    destruct (currentSessionId (database sv)) eqn:Hcur; cbn; rewrite ?Hcur;
      by split.
  - cbn. unfold endRecordingSession_resumed.
    destruct (ending (database sv)); cbn; by split.
Qed.

(** X17: recorded events are immutable: the events of a session that is
    not the current one are changed by no later report, close or
    recording command, as long as no session is started with the same
    id. *)
Theorem closed_session_is_immutable (sid : string) (evs : list ServerEvent)
    (sv : Server) :
  currentSessionId (database sv) ≠ Some sid →
  Forall (λ ev, ev ≠ EvStartRecording sid) evs →
  session_rows sid (database (run_server evs sv))
  = session_rows sid (database sv)
  ∧ getRecordingEvents sid (database (run_server evs sv))
    = getRecordingEvents sid (database sv).
Proof.
  intros Hc Hevs.
  assert (H : currentSessionId (database (run_server evs sv)) ≠ Some sid
              ∧ session_rows sid (database (run_server evs sv))
                = session_rows sid (database sv)).
  { induction evs as [| ev evs IH] using rev_ind; [by split |].
    apply Forall_app in Hevs as [Hevs Hev]. inversion Hev; subst.
    destruct (IH Hevs) as [IH1 IH2]. rewrite run_server_snoc.
    destruct (server_step_closed_session sid (run_server evs sv) ev)
      as [S1 S2]; try assumption.
    split; [exact S1 | by rewrite S2]. }
  destruct H as [_ H]. split; [exact H |].
  unfold getRecordingEvents. by rewrite H.
Qed.

Lemma closed_session_is_immutable_witness :
  let sv :=
    run_server [EvStartRecording "s1"; EvMessage 1 (other "ping") 1000;
                EvStopRecording; EvSessionEnded] initial_server in
  let evs := [EvStartRecording "s2"; EvMessage 1 (other "pong") 2000;
              EvMessage 1 (node_info "node_A" sample_node) 3000] in
  currentSessionId (database sv) ≠ Some "s1"%string
  ∧ Forall (λ ev, ev ≠ EvStartRecording "s1") evs
  ∧ getRecordingEvents "s1" (database (run_server evs sv))
    = [mkRow 1 "s1" 1000 (other "ping")].
Proof.
  intros sv evs.
  assert (Hc : currentSessionId (database sv) ≠ Some "s1"%string)
    by discriminate.
  assert (He : Forall (λ ev, ev ≠ EvStartRecording "s1") evs)
    by (repeat apply List.Forall_cons; try apply List.Forall_nil; discriminate).
  destruct (closed_session_is_immutable "s1" evs sv Hc He) as [_ H].
  split; [exact Hc |]. split; [exact He |]. rewrite H. reflexivity.
Defined.

(** ** Playback *)

Lemma tick_stopped p : playbackInterval p = false → tick p = p.
Proof. intros H. unfold tick. by rewrite H. Qed.

Lemma sent_tick p : sent (tick p) = sent p ++ emission p.
Proof.
  unfold tick, emission. destruct (playbackInterval p); [| by rewrite app_nil_r].
  by destruct (events p !! eventIndex p).
Qed.

(** The one interval of a socket, firing [k] times. *)
Lemma fire_single p h k :
  fire_all (replicate k 0%nat) (mkObserver [p] h (sent p))
  = mkObserver [ticks k p] h (sent (ticks k p)).
Proof.
  induction k as [| k IH]; [reflexivity |].
  unfold fire_all in *. rewrite replicate_S_end, foldl_snoc, IH.
  unfold interval_fires. cbn. by rewrite sent_tick.
Qed.

(** Firings of cleared or missing intervals send nothing. *)
Lemma fire_all_cleared fired : ∀ o,
  Forall (λ p, playbackInterval p = false) (timers o) →
  fire_all fired o = o.
Proof.
  induction fired as [| i fired IH]; intros o Ho; [reflexivity |].
  assert (Hi : interval_fires o i = o).
  { unfold interval_fires. destruct (timers o !! i) as [p |] eqn:Hp;
      [| reflexivity].
    assert (Hoff : playbackInterval p = false).
    { rewrite Forall_forall in Ho. apply Ho.
      by apply list_elem_of_lookup_2 in Hp. }
    rewrite (tick_stopped p Hoff), list_insert_id by exact Hp.
    unfold emission. rewrite Hoff, app_nil_r. by destruct o. }
  unfold fire_all in *. cbn [foldl]. rewrite Hi. by apply IH.
Qed.

(** X18: one playback on a socket.  When the load of [startPlayback] is
    done, the interval sends one event per firing: after [k] firings the
    socket has received the first [k] loaded events, and
    [playback_complete] once all are sent.  A [stopPlayback] from then on
    clears this interval: whatever fires afterwards, the socket receives
    nothing more.  (A stop that comes before the load is done, or after a
    second [startPlayback], does not: see [stop_before_load_is_lost] and
    [second_start_orphans_first].) *)
Theorem playback_progress_and_stop (sessionId : string) (db : Database)
    (k : nat) (later : list nat) :
  let loaded := getRecordingEvents sessionId db in
  let o :=
    fire_all (replicate k 0%nat)
             (playback_loaded sessionId db new_observer) in
  received o
  = map playback_event (take k loaded)
    ++ (if decide (length loaded < k)%nat then [playback_complete] else [])
  ∧ received (fire_all later (stopPlayback o)) = received o
  ∧ socket_playbackInterval (stopPlayback o) = None.
Proof.
  intros loaded o.
  assert (Ho : o = mkObserver [ticks k (startPlayback sessionId db)] (Some 0%nat)
                              (sent (ticks k (startPlayback sessionId db)))).
  { subst o. unfold playback_loaded, new_observer. cbn [timers received app length].
    apply (fire_single (startPlayback sessionId db)). }
  rewrite Ho. cbn [received stopPlayback socket_playbackInterval timers].
  split; [| split; [| reflexivity]].
  - unfold startPlayback. fold loaded.
    destruct (decide (length loaded < k)%nat) as [Hlt | Hge].
    + rewrite ticks_complete by exact Hlt. cbn [sent].
      by rewrite firstn_all2 by lia.
    + rewrite ticks_playing by lia. cbn [sent]. by rewrite app_nil_r.
  - rewrite fire_all_cleared; [reflexivity |].
    cbn. repeat constructor.
Qed.

(** A [stopPlayback] that comes while [startPlayback] still awaits the
    events finds nothing on the socket, and the playback starts all the
    same. *)
Lemma stop_before_load_is_lost :
  let db := recordEvent (other "first") 1000
              (startRecordingSession "s1" empty_database) in
  let o := playback_loaded "s1" db (stopPlayback new_observer) in
  received (fire_all [0%nat; 0%nat] o)
  = [playback_event (mkRow 1 "s1" 1000 (other "first")); playback_complete].
Proof. reflexivity. Qed.

(** A second [startPlayback] overwrites [socket.playbackInterval]: a
    [stopPlayback] then clears the second interval and the first keeps
    sending. *)
Lemma second_start_orphans_first :
  let db := recordEvent (other "first") 1000
              (startRecordingSession "s1" empty_database) in
  let o :=
    stopPlayback
      (playback_loaded "s1" db (playback_loaded "s1" db new_observer)) in
  socket_playbackInterval o = None
  ∧ received (fire_all [0%nat; 1%nat; 0%nat; 1%nat] o)
    = [playback_event (mkRow 1 "s1" 1000 (other "first")); playback_complete].
Proof. vm_compute. auto. Qed.

(** ** Repeated reports *)

Lemma findIndex_insert {A} (p : A → bool) (l : list A) (x : A) : ∀ i,
  findIndex p l = Some i → p x = true → findIndex p (<[i := x]> l) = Some i.
Proof.
  induction l as [| y l IH]; intros i H Hx; simpl in H; [discriminate |].
  destruct (p y) eqn:Hy.
  - injection H as <-. simpl. by rewrite Hx.
  - destruct (findIndex p l) as [j |] eqn:Hj; simpl in H; [| discriminate].
    injection H as <-. simpl. rewrite Hy, (IH j eq_refl Hx). reflexivity.
Qed.

Lemma findIndex_snoc {A} (p : A → bool) (l : list A) (x : A) :
  findIndex p l = None → p x = true →
  findIndex p (l ++ [x]) = Some (length l).
Proof.
  induction l as [| y l IH]; intros H Hx; simpl in *.
  - by rewrite Hx.
  - destruct (p y); [discriminate |].
    destruct (findIndex p l); [discriminate |]. by rewrite IH.
Qed.

Lemma filter_filter_same {A} (p : A → bool) (l : list A) :
  List.filter p (List.filter p l) = List.filter p l.
Proof.
  apply filter_all. intros x Hx. by apply elem_of_List_filter in Hx as [_ ?].
Qed.

Lemma filter_new_edges k nbs :
  List.filter (λ e, negb (touches k e)) (map (new_edge k) nbs) = [].
Proof.
  induction nbs as [| nb nbs IH]; [reflexivity |]. simpl.
  unfold touches at 1. cbn [from new_edge]. rewrite String.eqb_refl. exact IH.
Qed.

(** Rebuilding the topology entry of a node twice is rebuilding it once,
    when [findIndex] finds the entry of the first rebuild: when the node
    carries no [id] other than its name. *)
Lemma updateTopologyFromNode_twice k n s :
  id_agrees k n →
  updateTopologyFromNode k n (updateTopologyFromNode k n s)
  = updateTopologyFromNode k n s.
Proof.
  intros Hid.
  unfold updateTopologyFromNode at 1.
  rewrite updateTopologyFromNode_nodes.
  change (tokenStatus (updateTopologyFromNode k n s)) with (tokenStatus s).
  set (data := nodeData (tokenStatus s) k n).
  assert (Hp : field_eqb (node_id data) (Val k) = true).
  { apply field_eqb_Val. unfold data. cbn [nodeData node_id].
    destruct Hid as [-> | ->]; reflexivity. }
  unfold updateTopologyFromNode. cbn [topology with_topology topo_nodes edges].
  fold data. unfold with_topology. cbn. f_equal. f_equal.
  - destruct (findIndex (λ x, field_eqb (node_id x) (Val k))
                (topo_nodes (topology s))) as [i |] eqn:Hf.
    + rewrite (findIndex_insert _ _ data i Hf Hp).
      apply list_insert_insert_eq.
    + rewrite (findIndex_snoc _ _ data Hf Hp).
      rewrite insert_app_r_alt by lia. rewrite Nat.sub_diag. reflexivity.
  - destruct (truthy_arr (neighbors n)); [| reflexivity].
    rewrite !push_edges_spec, List.filter_app, filter_filter_same.
    by rewrite filter_new_edges, app_nil_r.
Qed.

Lemma calculateGlobalStatistics_twice now s :
  calculateGlobalStatistics now (calculateGlobalStatistics now s)
  = calculateGlobalStatistics now s.
Proof.
  change (calculateGlobalStatistics now (calculateGlobalStatistics now s))
    with (with_statistics
            (statistics
               (calculateGlobalStatistics now (calculateGlobalStatistics now s)))
            (calculateGlobalStatistics now s)).
  rewrite (calculateGlobalStatistics_current now s). reflexivity.
Qed.

Lemma over_over {A} (a b : field A) : over a (over a b) = over a b.
Proof. by destruct a. Qed.

(** X19: [statistics_update] and [dfs_state] reports are idempotent:
    applying the same report a second time, at the same time, leaves the
    whole model as the first application left it.  So are [node_info] and
    [topology_update] reports when the node object they rebuild the
    topology entry from carries no [id] property other than its name
    (else [findIndex] misses the entry and a second one is pushed, see
    [node_info_with_id_is_not_idempotent]). *)
Theorem reports_are_idempotent (now : Z) (s : NetworkMonitor) :
  (∀ nodeId nodeInfo,
     id_agrees nodeId
       (spread_node (from_option (λ n, n) empty_node (nodes s !! nodeId))
                    nodeInfo) →
     updateNode now nodeId nodeInfo (updateNode now nodeId nodeInfo s)
     = updateNode now nodeId nodeInfo s)
  ∧ (∀ d,
       (∀ k node, tu_nodeId d = Val k → nodes s !! k = Some node →
                  id_agrees k node) →
       updateTopology d (updateTopology d s) = updateTopology d s)
  ∧ (∀ d, updateStatistics now d (updateStatistics now d s)
          = updateStatistics now d s)
  ∧ (∀ d, updateDfsState now d (updateDfsState now d s)
          = updateDfsState now d s).
Proof.
  split; [| split; [| split]].
  - (* updateNode *)
    intros k info Hid.
    set (upd := set_lastUpdated now
                  (spread_node (from_option (λ n, n) empty_node (nodes s !! k))
                               info)).
    assert (Hid' : id_agrees k upd) by exact Hid.
    assert (H1 : updateNode now k info s
                 = calculateGlobalStatistics now
                     (updateTopologyFromNode k upd
                        (with_nodes (<[k := upd]> (nodes s)) s)))
      by reflexivity.
    rewrite H1. unfold updateNode at 1, updateStatistics.
    cbn [nodes calculateGlobalStatistics with_statistics
         updateTopologyFromNode with_topology with_nodes].
    rewrite lookup_insert_eq. cbn [from_option].
    assert (Hupd : set_lastUpdated now (spread_node upd info) = upd).
    { unfold upd, set_lastUpdated, spread_node. cbn.
      by rewrite !over_over. }
    rewrite Hupd, insert_insert_eq.
    change (calculateGlobalStatistics now
              (updateTopologyFromNode k upd
                 (calculateGlobalStatistics now
                    (updateTopologyFromNode k upd
                       (with_nodes (<[k := upd]> (nodes s)) s))))
            = calculateGlobalStatistics now
                (updateTopologyFromNode k upd
                   (with_nodes (<[k := upd]> (nodes s)) s))).
    set (x := with_nodes (<[k := upd]> (nodes s)) s).
    change (updateTopologyFromNode k upd
              (calculateGlobalStatistics now (updateTopologyFromNode k upd x)))
      with (with_statistics
              (statistics
                 (calculateGlobalStatistics now (updateTopologyFromNode k upd x)))
              (updateTopologyFromNode k upd (updateTopologyFromNode k upd x))).
    rewrite (updateTopologyFromNode_twice _ _ _ Hid').
    apply calculateGlobalStatistics_twice.
  - (* updateTopology *)
    intros d Hid. unfold updateTopology at 2.
    destruct (truthy_str (tu_nodeId d)) eqn:Ht.
    + destruct (nodes s !! _) as [node |] eqn:Hk.
      * unfold updateTopology. rewrite Ht.
        rewrite updateTopologyFromNode_nodes. cbn [nodes with_nodes].
        rewrite lookup_insert_eq.
        set (k := match tu_nodeId d with Val k => k | _ => ""%string end).
        set (node' := set_neighbors (or_nil (tu_neighbors d)) node).
        assert (Hn : set_neighbors (or_nil (tu_neighbors d)) node' = node')
          by reflexivity.
        assert (Hid' : id_agrees k node').
        { apply (Hid k node); [| exact Hk].
          unfold k. destruct (tu_nodeId d); try discriminate Ht. reflexivity. }
        fold k in Hk. rewrite Hk. fold node'.
        rewrite Hn, insert_insert_eq.
        change (with_nodes (<[k := node']> (nodes s))
                  (updateTopologyFromNode k node'
                     (with_nodes (<[k := node']> (nodes s)) s)))
          with (updateTopologyFromNode k node'
                  (with_nodes (<[k := node']> (nodes s)) s)).
        apply updateTopologyFromNode_twice. exact Hid'.
      * unfold updateTopology. by rewrite Ht, Hk.
    + unfold updateTopology. by rewrite Ht.
  - (* updateStatistics *)
    intros [d |]; [| apply calculateGlobalStatistics_twice].
    unfold updateStatistics at 2.
    destruct (truthy_str (su_nodeId d)) eqn:Ht;
      [| unfold updateStatistics; rewrite Ht;
         apply calculateGlobalStatistics_twice].
    destruct (nodes s !! _) as [node |] eqn:Hk;
      [| unfold updateStatistics; rewrite Ht; cbn [nodes calculateGlobalStatistics
           with_statistics]; rewrite Hk; apply calculateGlobalStatistics_twice].
    unfold updateStatistics. rewrite Ht.
    cbn [nodes performanceMetrics calculateGlobalStatistics with_statistics
         with_nodes with_performanceMetrics].
    rewrite !lookup_insert_eq. cbn [from_option pf_bytesSent pf_bytesReceived
      pf_messagesRelayed].
    rewrite !over_over, !insert_insert_eq, Hk.
    match goal with
    | |- calculateGlobalStatistics now ?a = calculateGlobalStatistics now ?b =>
        change a with (calculateGlobalStatistics now b)
    end.
    apply calculateGlobalStatistics_twice.
  - (* updateDfsState *)
    intros d. unfold updateDfsState.
    destruct (truthy_str (df_nodeId d)) eqn:Ht; rewrite ?Ht; [| reflexivity].
    cbn [dfsState tokenStatus with_tokenStatus with_dfsState
         currentHolder sequence phase traversalDepth visitedCount lastMovement].
    rewrite insert_insert_eq. unfold with_tokenStatus, with_dfsState. cbn.
    f_equal. f_equal.
    + destruct (truthy_str (df_phase d)); [by destruct (df_phase d) | reflexivity].
    + destruct (truthy_num (df_depth d)); [by destruct (df_depth d) | reflexivity].
Qed.

Lemma reports_are_idempotent_witness :
  let s := updateNode 1000 "node_A" sample_node fresh in
  id_agrees "node_A"
    (spread_node (from_option (λ n, n) empty_node (nodes s !! "node_A"%string))
                 sample_node)
  ∧ updateNode 2000 "node_A" sample_node
      (updateNode 2000 "node_A" sample_node s)
    = updateNode 2000 "node_A" sample_node s.
Proof.
  intros s.
  assert (Hid : id_agrees "node_A"
                  (spread_node
                     (from_option (λ n, n) empty_node
                        (nodes s !! "node_A"%string))
                     sample_node)) by (left; reflexivity).
  split; [exact Hid |].
  exact (proj1 (reports_are_idempotent 2000 s) "node_A"%string sample_node Hid).
Defined.

(** A [node_info] report that carries an [id] other than the node's name
    is not: [findIndex] looks for the name, misses the entry the first
    application pushed, and the second application pushes another. *)
Lemma node_info_with_id_is_not_idempotent :
  let report :=
    mkNode Absent Absent Absent Absent Absent Absent Absent Absent Absent
           Absent Absent Absent Absent (Val "node_Z"%string) Absent Absent in
  let s1 := updateNode 1000 "node_A" report fresh in
  let s2 := updateNode 1000 "node_A" report s1 in
  length (topo_nodes (topology s1)) = 1%nat
  ∧ length (topo_nodes (topology s2)) = 2%nat
  ∧ nodes s2 = nodes s1.
Proof. vm_compute. auto. Qed.

(** [token_status] is not: the second application adds a hold. *)
Lemma token_status_is_not_idempotent :
  let d := mkTokenData (Val "node_A"%string) Absent Absent Absent Absent in
  let s := updateNode 1000 "node_A" sample_node fresh in
  updateTokenStatus 2000 d (updateTokenStatus 2000 d s)
  ≠ updateTokenStatus 2000 d s.
Proof.
  intros d s H.
  apply (f_equal (λ m, tokenHolds <$> nodes m !! "node_A"%string)) in H.
  vm_compute in H. discriminate H.
Qed.

(** ** DFS progress *)

Lemma updateDfsState_dom now d s :
  dom (dfsState (updateDfsState now d s))
  = list_to_set (truthy_id (df_nodeId d)) ∪ dom (dfsState s)
  ∧ (truthy_id (df_nodeId d) ≠ [] →
     visitedCount (tokenStatus (updateDfsState now d s))
     = Some (Z.of_nat (size (dom (dfsState (updateDfsState now d s)))))).
Proof.
  unfold updateDfsState, truthy_id.
  destruct (df_nodeId d) as [| | k]; cbn [truthy_str];
    try (split; [set_solver | done]).
  destruct (String.eqb k ""); cbn [negb]; [split; [set_solver | done] |].
  cbn. split.
  - rewrite dom_insert_L. set_solver.
  - intros _. by rewrite size_dom.
Qed.

(** X20: [visitedCount] counts the nodes that sent a [dfs_state] report,
    known to the monitor or not: after any sequence of such reports on a
    fresh monitor, [dfsState] has one record for each distinct truthy
    [nodeId] reported and [visitedCount] is their number. *)
Theorem visitedCount_counts_reporters (ds : list (Z * DfsData)) :
  let s := apply_dfs_reports ds fresh in
  let reporters : gset string :=
    list_to_set (concat (map (λ d, truthy_id (df_nodeId d.2)) ds)) in
  dom (dfsState s) = reporters
  ∧ visitedCount (tokenStatus s) = Some (Z.of_nat (size reporters))
  ∧ nodes s = ∅.
Proof.
  cbv zeta. induction ds as [| [now d] ds IH] using rev_ind.
  - cbn. split; [apply dom_empty_L |]. split; [| reflexivity].
    by rewrite size_empty.
  - unfold apply_dfs_reports in *. rewrite foldl_snoc.
    rewrite map_app, concat_app, list_to_set_app_L. cbn [map concat snd].
    rewrite app_nil_r.
    destruct IH as (IH1 & IH2 & IH3).
    set (s := foldl (λ s '(now, d), updateDfsState now d s) fresh ds) in *.
    destruct (updateDfsState_dom now d s) as [Hd Hv].
    split; [| split].
    + rewrite Hd, IH1. set_solver.
    + destruct (truthy_id (df_nodeId d)) as [| k l] eqn:Hid.
      * assert (Hs : updateDfsState now d s = s).
        { unfold updateDfsState. unfold truthy_id in Hid.
          destruct (df_nodeId d) as [| | k]; cbn [truthy_str]; try reflexivity.
          destruct (String.eqb k ""); [reflexivity | discriminate]. }
        rewrite Hs, IH2. f_equal. f_equal. f_equal. set_solver.
      * rewrite Hv by discriminate. rewrite Hd, IH1.
        f_equal. f_equal. f_equal. set_solver.
    + unfold updateDfsState. destruct (truthy_str _); exact IH3.
Qed.

(** ** Reports split over several reads *)

Section PartialReads.

Variable JSON_parse : string → option Message.

(** X21: a report is not dispatched before its newline has arrived: as
    long as the reads of a connection hold no newline, nothing is parsed
    and the server is unchanged; the reads are kept in the buffer, in
    order. *)
Theorem partial_report_waits (chunks : list (Z * string)) (c : Conn)
    (sv : Server) :
  buffer c = EmptyString →
  has_newline (concat_chunks (map snd chunks)) = false →
  feed JSON_parse chunks (c, sv)
  = (set_buffer (concat_chunks (map snd chunks)) c, sv).
Proof.
  intros Hbuf Hnl. rewrite feed_accepted, Hbuf.
  destruct (tagged_lines_stream chunks EmptyString eq_refl) as [Hl Hb].
  change (EmptyString +:+ concat_chunks (map snd chunks))
    with (concat_chunks (map snd chunks)) in Hl, Hb.
  unfold complete_lines, remainder in Hl, Hb.
  rewrite (split_newline_plain _ Hnl) in Hl, Hb. cbn in Hl, Hb.
  destruct (tagged_lines EmptyString chunks); [| discriminate Hl].
  by rewrite Hb.
Qed.

End PartialReads.

Lemma partial_report_waits_witness :
  let chunks := [(1000, "{" +:+ quote +:+ "type"); (2000, quote +:+ ":")] in
  buffer (new_conn 1) = EmptyString
  ∧ has_newline (concat_chunks (map snd chunks)) = false
  ∧ feed sample_parse chunks (new_conn 1, initial_server)
    = (set_buffer truncated_line (new_conn 1), initial_server).
Proof.
  intros chunks.
  split; [reflexivity |]. split; [reflexivity |].
  rewrite (partial_report_waits sample_parse chunks (new_conn 1)
             initial_server eq_refl eq_refl).
  reflexivity.
Defined.
